(** * christmas_tree: the gesture interpreter and the scene controller

    A shallow embedding of the two stateful parts of [src/App.tsx]:

    - [GestureController]'s per-frame callback [predictWebcam], which turns
      one MediaPipe recognition result into calls of the [onGesture],
      [onMove], [onPinchStart] and [onPinchEnd] props while keeping the
      pinch flag [isPinchingRef];
    - [GrandTreeApp]'s state ([sceneState], [rotationSpeed],
      [selectedPhotoIndex]) with the handlers wired to those props.

    JavaScript numbers are IEEE 754 binary64 values, so they are modelled by
    Rocq's primitive floats: literals, [-], [*], [/], [Math.sqrt],
    [Math.abs], [<] and [>] are the same operations on the same values.

    The drawing on the debug canvas and the [onStatus] messages do not
    influence any of the four props above nor the pinch flag and are left
    out. *)

From Stdlib Require Import List String Bool ZArith Lia Floats.
Import ListNotations.

Set Warnings "-inexact-float".

Local Open Scope string_scope.
Local Open Scope list_scope.

(** ** A small monad for one run of a JavaScript callback

    A callback reads and writes the ref [isPinchingRef.current], calls
    props (the calls are logged in order) and may end abruptly with a
    [TypeError] when a property of [undefined] is read.  Calls made before
    the exception stay made. *)

Module Js.

Inductive Completion (A : Type) : Type :=
| Normal (a : A)
| TypeError.
Arguments Normal {A} a.
Arguments TypeError {A}.

Section WithLog.
(** [E] is the type of logged prop calls. *)
Variable E : Type.

Definition M (A : Type) : Type :=
  bool -> list E * bool * Completion A.

Definition ret {A} (a : A) : M A :=
  fun ref => ([], ref, Normal a).

Definition bind {A B} (m : M A) (k : A -> M B) : M B :=
  fun ref =>
    match m ref with
    | (log1, ref1, Normal a) =>
        match k a ref1 with
        | (log2, ref2, c) => (log1 ++ log2, ref2, c)
        end
    | (log1, ref1, TypeError) => (log1, ref1, TypeError)
    end.

Definition call (e : E) : M unit :=
  fun ref => ([e], ref, Normal tt).

Definition readRef : M bool :=
  fun ref => ([], ref, Normal ref).

Definition writeRef (b : bool) : M unit :=
  fun _ => ([], b, Normal tt).

Definition throw {A} : M A :=
  fun ref => ([], ref, TypeError).

(** [o.p] where [o] is the result of an array index: reading a property
    of [undefined] throws. *)
Definition deref {A} (o : option A) : M A :=
  match o with
  | Some a => ret a
  | None => throw
  end.

(** [if (c) m;] *)
Definition when (c : bool) (m : M unit) : M unit :=
  if c then m else ret tt.

Definition log {A} (r : list E * bool * Completion A) : list E :=
  fst (fst r).
Definition ref {A} (r : list E * bool * Completion A) : bool :=
  snd (fst r).
Definition completion {A} (r : list E * bool * Completion A)
  : Completion A :=
  snd r.

Definition completes {A} (r : list E * bool * Completion A) : bool :=
  match completion r with
  | Normal _ => true
  | TypeError => false
  end.
End WithLog.

Arguments ret {E A} a.
Arguments bind {E A B} m k.
Arguments call {E} e.
Arguments readRef {E}.
Arguments writeRef {E} b.
Arguments throw {E A}.
Arguments deref {E A} o.
Arguments when {E} c m.
Arguments log {E A} r.
Arguments ref {E A} r.
Arguments completion {E A} r.
Arguments completes {E A} r.

End Js.

Declare Scope js_scope.
Delimit Scope js_scope with js.
Notation "x <- m ;; k" := (Js.bind m (fun x => k))
  (at level 61, m at next level, right associativity) : js_scope.
Notation "m ;; k" := (Js.bind m (fun _ => k))
  (at level 61, right associativity) : js_scope.

(** ** Data of the recognizer and of the props *)

(** [useState<"CHAOS" | "FORMED">] *)
Inductive SceneState : Type := CHAOS | FORMED.

Definition SceneState_eqb (a b : SceneState) : bool :=
  match a, b with
  | CHAOS, CHAOS | FORMED, FORMED => true
  | _, _ => false
  end.

(** MediaPipe's [NormalizedLandmark]. *)
Record NormalizedLandmark : Type := mkLandmark {
  x : float;
  y : float;
  z : float
}.

(** MediaPipe's [Category]. *)
Record Category : Type := mkCategory {
  categoryName : string;
  score : float
}.

(** MediaPipe's [GestureRecognizerResult]: one array of landmarks and one
    array of categories per detected hand. *)
Record GestureRecognizerResult : Type := mkResult {
  landmarks : list (list NormalizedLandmark);
  gestures : list (list Category)
}.

(** A call of one of the props of [GestureController].  [GrandTreeApp], the
    only user of the component, passes all of them, so the guards
    [if (onPinchStart)] and [if (onPinchEnd)] hold. *)
Inductive PropCall : Type :=
| onGesture (s : SceneState)
| onMove (speed : float)
| onPinchStart (screenX screenY : float)
| onPinchEnd.

(** ** GestureController *)

Module GestureController.

Local Open Scope js_scope.

Definition PINCH_THRESHOLD : float := 0.08%float.

(** [currentGesture !== "Open_Palm"] for [currentGesture : string | null]. *)
Definition notOpenPalm (currentGesture : option string) : bool :=
  match currentGesture with
  | Some name => negb (name =? "Open_Palm")
  | None => true
  end.

(** Lines 1522-1532: the gesture part; returns [currentGesture]. *)
Definition handleGesture (results : GestureRecognizerResult)
  : Js.M PropCall (option string) :=
  match gestures results with
  | g0 :: _ =>
      c <- Js.deref (nth_error g0 0) ;;
      let name := categoryName c in
      let score := score c in
      if (0.4 <? score)%float then
        Js.when (name =? "Open_Palm") (Js.call (onGesture CHAOS)) ;;
        Js.when (name =? "Closed_Fist") (Js.call (onGesture FORMED)) ;;
        Js.ret (Some name)
      else Js.ret None
  | [] => Js.ret None
  end.

(** Lines 1549-1552: the distance between the thumb tip and the index
    finger tip. *)
Definition distance (thumbTip indexTip : NormalizedLandmark) : float :=
  let dx := (x thumbTip - x indexTip)%float in
  let dy := (y thumbTip - y indexTip)%float in
  let dz := (z thumbTip - z indexTip)%float in
  PrimFloat.sqrt (dx * dx + dy * dy + dz * dz)%float.

(** Lines 1573-1578: the pinch centre in screen coordinates. *)
Definition screenX (thumbTip indexTip : NormalizedLandmark) : float :=
  let pinchX := ((x thumbTip + x indexTip) / 2)%float in
  pinchX.

Definition screenY (thumbTip indexTip : NormalizedLandmark) : float :=
  let pinchY := ((y thumbTip + y indexTip) / 2)%float in
  (1 - pinchY)%float.

(** Lines 1545-1603: the pinch edge detector, for [landmarks.length >= 9]
    and a current gesture other than Open_Palm. *)
Definition detectPinch (hand : list NormalizedLandmark)
  : Js.M PropCall unit :=
  thumbTip <- Js.deref (nth_error hand 4) ;;
  indexTip <- Js.deref (nth_error hand 8) ;;
  let isCurrentlyPinching :=
    (distance thumbTip indexTip <? PINCH_THRESHOLD)%float in
  isPinching <- Js.readRef ;;
  if isCurrentlyPinching && negb isPinching then
    Js.writeRef true ;;
    Js.call (onPinchStart (screenX thumbTip indexTip)
                          (screenY thumbTip indexTip))
  else if negb isCurrentlyPinching && isPinching then
    Js.writeRef false ;;
    Js.call onPinchEnd
  else Js.ret tt.

(** Lines 1605-1611: the [else] of the pinch guard. *)
Definition resetPinch : Js.M PropCall unit :=
  isPinching <- Js.readRef ;;
  if isPinching then
    Js.writeRef false ;;
    Js.call onPinchEnd
  else Js.ret tt.

(** Lines 1521-1616: what [predictWebcam] does with the [results] of one
    video frame, that is once the recognizer, the video and the canvas are
    there and the video has a width. *)
Definition predictWebcam (results : GestureRecognizerResult)
  : Js.M PropCall unit :=
  currentGesture <- handleGesture results ;;
  match landmarks results with
  | hand :: _ =>
      wrist <- Js.deref (nth_error hand 0) ;;
      let speed := ((0.5 - x wrist) * 0.15)%float in
      Js.call (onMove (if (0.01 <? PrimFloat.abs speed)%float
                       then speed else 0%float)) ;;
      if (9 <=? List.length hand)%nat && notOpenPalm currentGesture then
        detectPinch hand
      else
        resetPinch
  | [] => Js.call (onMove 0%float)
  end.

(** The animation-frame loop over the results of successive frames.  An
    exception leaves [predictWebcam] before it requests the next frame, so
    the loop ends there. *)
Fixpoint frameLoop (frames : list GestureRecognizerResult)
  : Js.M PropCall unit :=
  match frames with
  | [] => Js.ret tt
  | results :: rest => predictWebcam results ;; frameLoop rest
  end.

End GestureController.



(** ** What a log of prop calls contains *)

Definition formationCalls (calls : list PropCall) : list SceneState :=
  flat_map (fun c => match c with onGesture s => [s] | _ => [] end) calls.

Definition moveCalls (calls : list PropCall) : list float :=
  flat_map (fun c => match c with onMove v => [v] | _ => [] end) calls.

Definition isPinchCall (c : PropCall) : bool :=
  match c with
  | onPinchStart _ _ | onPinchEnd => true
  | _ => false
  end.

Definition pinchCalls (calls : list PropCall) : list PropCall :=
  filter isPinchCall calls.

(** The two pinch events without their arguments. *)
Inductive PinchEdge : Type := PinchStart | PinchEnd.

Definition pinchEdges (calls : list PropCall) : list PinchEdge :=
  flat_map (fun c => match c with
                     | onPinchStart _ _ => [PinchStart]
                     | onPinchEnd => [PinchEnd]
                     | _ => []
                     end) calls.

(** ** What a frame contains *)

(** The gesture [results.gestures[0][0]] the controller looks at, when there
    is one. *)
Definition classified (results : GestureRecognizerResult) : option Category :=
  match gestures results with
  | g0 :: _ => nth_error g0 0
  | [] => None
  end.

(** The gesture array is either empty or starts with a non-empty array, so
    that reading [results.gestures[0][0].categoryName] does not throw. *)
Definition gesturesReadable (results : GestureRecognizerResult) : bool :=
  match gestures results with
  | g0 :: _ => match g0 with _ :: _ => true | [] => false end
  | [] => true
  end.

(** The value of [currentGesture] after the gesture part: the label of the
    classified gesture when its score exceeds 0.4. *)
Definition currentGesture (results : GestureRecognizerResult)
  : option string :=
  match classified results with
  | Some c => if (0.4 <? score c)%float then Some (categoryName c) else None
  | None => None
  end.

(** The hand [results.landmarks[0]], when there is one. *)
Definition firstHand (results : GestureRecognizerResult)
  : option (list NormalizedLandmark) :=
  match landmarks results with
  | hand :: _ => Some hand
  | [] => None
  end.

(** The pinch predicate of a frame: the thumb tip (landmark 4) and the
    index finger tip (landmark 8) of the hand are closer than 0.08. *)
Definition pinchPredicate (results : GestureRecognizerResult) : bool :=
  match firstHand results with
  | Some hand =>
      match nth_error hand 4, nth_error hand 8 with
      | Some thumbTip, Some indexTip =>
          (GestureController.distance thumbTip indexTip <? 0.08)%float
      | _, _ => false
      end
  | None => false
  end.

(** The frames on which the pinch distance is evaluated: a hand with at
    least 9 landmarks and a current gesture other than Open_Palm. *)
Definition pinchEvaluated (results : GestureRecognizerResult) : bool :=
  gesturesReadable results &&
  match firstHand results with
  | Some hand => (9 <=? List.length hand)%nat
  | None => false
  end &&
  GestureController.notOpenPalm (currentGesture results).

(** ** Edges of a sequence of booleans *)

(** The event of one step from [before] to [after]. *)
Definition edge (before after : bool) : list PinchEdge :=
  if negb before && after then [PinchStart]
  else if before && negb after then [PinchEnd]
  else [].

(** The events of a sequence of values, starting from [before]: one
    [PinchStart] per false-to-true step, one [PinchEnd] per true-to-false
    step, nothing while the value stays. *)
Fixpoint edges (before : bool) (values : list bool) : list PinchEdge :=
  match values with
  | [] => []
  | v :: rest => edge before v ++ edges v rest
  end.

(** The values of [isPinchingRef.current] after each frame the loop
    processes. *)
Fixpoint refTrace (frames : list GestureRecognizerResult) (isPinching : bool)
  : list bool :=
  match frames with
  | [] => []
  | results :: rest =>
      let r := GestureController.predictWebcam results isPinching in
      Js.ref r :: (if Js.completes r then refTrace rest (Js.ref r) else [])
  end.

(** ** Sample frames *)

Definition point (px py : float) : NormalizedLandmark :=
  mkLandmark px py 0%float.

(** A hand of 21 landmarks with the given wrist (0), thumb tip (4) and index
    finger tip (8). *)
Definition handOf (wrist thumbTip indexTip : NormalizedLandmark)
  : list NormalizedLandmark :=
  let p := point 0.5 0.5 in
  [wrist; p; p; p; thumbTip; p; p; p; indexTip] ++ repeat p 12.

(** A hand in the middle of the picture whose thumb and index finger tips
    are [d] apart. *)
Definition handApart (d : float) : list NormalizedLandmark :=
  handOf (point 0.5 0.9) (point d 0.5) (point 0 0.5).

Definition frameOf (hand : list NormalizedLandmark) (gesture : list Category)
  : GestureRecognizerResult :=
  mkResult [hand] [gesture].

Definition noHand : GestureRecognizerResult := mkResult [] [].

(** Thumb and index finger 0.20, 0.05 and 0.20 apart, no gesture label. *)
Definition apart020 : GestureRecognizerResult :=
  frameOf (handApart 0.20) [mkCategory "None" 0.9].
Definition apart005 : GestureRecognizerResult :=
  frameOf (handApart 0.05) [mkCategory "None" 0.9].

(** The same pinched hand classified as Open_Palm, with a high and with a
    low score. *)
Definition palm005 : GestureRecognizerResult :=
  frameOf (handApart 0.05) [mkCategory "Open_Palm" 0.9].
Definition weakPalm005 : GestureRecognizerResult :=
  frameOf (handApart 0.05) [mkCategory "Open_Palm" 0.3].

Definition fist005 : GestureRecognizerResult :=
  frameOf (handApart 0.05) [mkCategory "Closed_Fist" 0.9].

(** A hand reported with five landmarks only, its wrist at x = 0.1. *)
Definition shortHand : GestureRecognizerResult :=
  frameOf [point 0.1 0.9; point 0.5 0.5; point 0.5 0.5; point 0.5 0.5;
           point 0.5 0.5] [mkCategory "None" 0.9].

(** An open hand at the left of the picture: its wrist is at x = 0.1. *)
Definition leftHand : GestureRecognizerResult :=
  frameOf (handOf (point 0.1 0.9) (point 0.20 0.5) (point 0 0.5))
    [mkCategory "None" 0.9].

(** A hand reported without any landmark. *)
Definition emptyHand : GestureRecognizerResult :=
  frameOf [] [mkCategory "None" 0.9].

(** A pinched hand reported with ten landmarks only. *)
Definition tenLandmarks : GestureRecognizerResult :=
  frameOf (firstn 10 (handApart 0.05)) [mkCategory "None" 0.9].

(** ** GrandTreeApp *)

Module GrandTreeApp.

(** [CONFIG.counts.ornaments], line 70. *)
Definition CONFIG_counts_ornaments : float := 72%float.

(** The JavaScript number of an integer. *)
Definition number_of_Z (k : Z) : float :=
  SF2Prim (binary_normalize prec emax k 0 false).

(** The largest integer below or equal to [(-1)^s * m * 2^e]. *)
Definition floorZ (s : bool) (m : positive) (e : Z) : Z :=
  let n := if s then Zneg m else Zpos m in
  if (0 <=? e)%Z then n * 2 ^ e else n / 2 ^ (- e).

(** [Math.floor]: zeros, infinities and NaN are returned as they are. *)
Definition Math_floor (v : float) : float :=
  match Prim2SF v with
  | S754_finite s m e => number_of_Z (floorZ s m e)
  | _ => v
  end.

(** The [useState] cells of [GrandTreeApp] that the gesture props reach, and
    the [setTimeout] callbacks of [handlePinchStart] that have not run yet,
    each with the [screenX] and [screenY] it has captured.  The cells hold
    the values of the moment, the updates made so far included; what a
    callback has captured from an earlier render is a parameter of the
    callback. *)
Record State : Type := mkState {
  sceneState : SceneState;
  rotationSpeed : float;
  selectedPhotoIndex : option float;
  timeouts : list (float * float)
}.

(** The state after the first render. *)
Definition initial : State := mkState CHAOS 0%float None [].

Definition setRotationSpeed (v : float) (st : State) : State :=
  mkState (sceneState st) v (selectedPhotoIndex st) (timeouts st).

Definition setSelectedPhotoIndex (v : option float) (st : State) : State :=
  mkState (sceneState st) (rotationSpeed st) v (timeouts st).

(** Lines 1703-1707: the effect that depends on [[sceneState]]. *)
Definition resetSelectionEffect (st : State) : State :=
  match sceneState st with
  | FORMED => setSelectedPhotoIndex None st
  | CHAOS => st
  end.

(** [setSceneState(v)].  React leaves the component alone when the new
    value is the current one; otherwise the component renders again with
    the new value and then runs the effects whose dependencies have
    changed, here the one on [[sceneState]].  The render comes after the
    frame that made the update; the effect is applied here at once, which
    gives the same state, since what the rest of the frame can call
    ([setRotationSpeed], [handlePinchStart], [handlePinchEnd]) neither
    reads the selected photo nor sets it to anything but null. *)
Definition setSceneState (v : SceneState) (st : State) : State :=
  if SceneState_eqb v (sceneState st) then st
  else resetSelectionEffect
         (mkState v (rotationSpeed st) (selectedPhotoIndex st) (timeouts st)).

(** Lines 1671-1695.  [handlePinchStart] is made by [useCallback] with the
    dependencies [[sceneState]]: the [sceneState] it tests is [captured],
    the value of the render that made the callback, not the value of the
    moment.  It returns at once unless that value is CHAOS, and otherwise
    registers a timeout. *)
Definition handlePinchStart (captured : SceneState)
    (screenX screenY : float) (st : State) : State :=
  if negb (SceneState_eqb captured CHAOS) then st
  else mkState (sceneState st) (rotationSpeed st) (selectedPhotoIndex st)
               (timeouts st ++ [(screenX, screenY)]).

(** Lines 1677-1691: the body of the timeout.  [findClosestPhoto] is
    [window.findClosestPhoto], which is undefined while the scene is not
    mounted; [random] is the value [Math.random()] returns if it is
    called. *)
Definition pinchTimeout
    (findClosestPhoto : option (float -> float -> option float))
    (random : float) (screenX screenY : float) (st : State) : State :=
  let photoIndex : option float := None in
  let photoIndex :=
    match findClosestPhoto with
    | Some f => f screenX screenY
    | None => photoIndex
    end in
  let photoIndex :=
    match photoIndex with
    | None => Some (Math_floor (random * CONFIG_counts_ornaments)%float)
    | Some _ => photoIndex
    end in
  match photoIndex with
  | Some i => setSelectedPhotoIndex (Some i) st
  | None => st
  end.

(** The oldest pending timeout runs. *)
Definition runTimeout
    (findClosestPhoto : option (float -> float -> option float))
    (random : float) (st : State) : State :=
  match timeouts st with
  | (screenX, screenY) :: rest =>
      pinchTimeout findClosestPhoto random screenX screenY
        (mkState (sceneState st) (rotationSpeed st) (selectedPhotoIndex st)
                 rest)
  | [] => st
  end.

(** Lines 1698-1700. *)
Definition handlePinchEnd (st : State) : State :=
  setSelectedPhotoIndex None st.

(** Lines 1741-1748: the props that a render of [GrandTreeApp] hands to
    [GestureController], [captured] being the [sceneState] of that render.
    The frame loop calls the props of the render whose effect has started
    it (lines 1445 and 1623): within a frame the updates of the calls
    before are not rendered yet, and a loop that outlives its render goes
    on calling the props it has. *)
Definition handle (captured : SceneState) (c : PropCall) (st : State)
  : State :=
  match c with
  | onGesture s => setSceneState s st
  | onMove speed => setRotationSpeed speed st
  | onPinchStart screenX screenY =>
      handlePinchStart captured screenX screenY st
  | onPinchEnd => handlePinchEnd st
  end.

(** An index into the [CONFIG.counts.ornaments] photos. *)
Definition isOrnamentIndex (v : float) : Prop :=
  exists k : Z, (0 <= k < 72)%Z /\ v = number_of_Z k.

(** What [Math.random()] returns: "a Number value with positive sign,
    greater than or equal to 0 but less than 1". *)
Definition isMathRandom (u : float) : bool :=
  negb (get_sign u) && (0 <=? u)%float && (u <? 1)%float.

(** A hit test that always finds the photo 0, and one that finds
    nothing. *)
Definition hitFirst : option (float -> float -> option float) :=
  Some (fun _ _ => Some 0%float).
Definition hitNothing : option (float -> float -> option float) :=
  Some (fun _ _ => None).

End GrandTreeApp.

(** ** More of the gesture frames *)

(** Reading [landmarks[0].x] does not throw: there is no hand, or the first
    hand has a landmark 0. *)
Definition landmarksReadable (results : GestureRecognizerResult) : bool :=
  match firstHand results with
  | Some hand => match hand with _ :: _ => true | [] => false end
  | None => true
  end.

(** A hand is there and the frame can be read to its end. *)
Definition handTracked (results : GestureRecognizerResult) : bool :=
  gesturesReadable results &&
  match firstHand results with
  | Some hand => match hand with _ :: _ => true | [] => false end
  | None => false
  end.

(** The last of the frames in which a hand is tracked, if there is one. *)
Fixpoint lastTracked (frames : list GestureRecognizerResult)
  : option GestureRecognizerResult :=
  match frames with
  | [] => None
  | results :: rest =>
      match lastTracked rest with
      | Some later => Some later
      | None => if handTracked results then Some results else None
      end
  end.

(** A listener of the two pinch props that only remembers whether a pinch
    is under way: [None] when an [onPinchStart] comes during a pinch or an
    [onPinchEnd] outside of one. *)
Fixpoint replay (pinching : bool) (events : list PinchEdge) : option bool :=
  match events with
  | [] => Some pinching
  | PinchStart :: rest => if pinching then None else replay true rest
  | PinchEnd :: rest => if pinching then replay false rest else None
  end.

(** ** Experience: the hit test *)

Module Experience.

(** A child of [photoGroupRef.current], as far as [findClosestPhoto] looks
    at it.  The scene graph and the ray casting are three.js's: a child is
    given with the outcome of [instanceof THREE.Group], the meshes with a
    plane geometry that [traverse] finds in it (objects are told apart by
    their id) and the distance from the ray to its world position. *)
Record Child : Type := mkChild {
  isGroup : bool;
  planeMeshes : list nat;
  rayDistance : float
}.

Definition maxDistance : float := 15%float.

(** Lines 1291-1304: the photo meshes, each with the index of the child it
    was found in. *)
Fixpoint collectPhotoMeshes (groupIndex : nat) (children : list Child)
  : list (nat * nat) :=
  match children with
  | [] => []
  | group :: rest =>
      (if isGroup group
       then map (fun mesh => (mesh, groupIndex)) (planeMeshes group)
       else []) ++
      collectPhotoMeshes (S groupIndex) rest
  end.

(** Lines 1325-1335: one turn of the fallback loop on
    [(closestIndex, closestDistance)]. *)
Definition closer (i : nat) (group : Child) (closest : Z * float)
  : Z * float :=
  if isGroup group then
    let distance := rayDistance group in
    if (distance <? snd closest)%float && (distance <? maxDistance)%float
    then (Z.of_nat i, distance)
    else closest
  else closest.

Fixpoint closestFrom (i : nat) (children : list Child) (closest : Z * float)
  : Z * float :=
  match children with
  | [] => closest
  | group :: rest => closestFrom (S i) rest (closer i group closest)
  end.

(** Lines 1307-1318: the photo hit by the ray, if the nearest object it
    hits is one of the photo meshes.  [intersects] is what
    [raycaster.intersectObjects] returns, nearest object first. *)
Definition hitPhoto (photoMeshes : list (nat * nat)) (intersects : list nat)
  : option (nat * nat) :=
  if (0 <? List.length photoMeshes)%nat then
    match intersects with
    | hitMesh :: _ => find (fun p => (fst p =? hitMesh)%nat) photoMeshes
    | [] => None
    end
  else None.

(** A child that the fallback loop can pick: a group whose distance to the
    ray is below 15. *)
Definition candidate (children : list Child) (i : nat) (distance : float)
  : Prop :=
  exists group,
    nth_error children i = Some group /\ isGroup group = true /\
    rayDistance group = distance /\ (distance <? maxDistance)%float = true.

(** What the fallback loop has found after the first [n] children: nothing,
    or the first of the nearest candidates among them. *)
Definition closestSoFar (children : list Child) (n : nat)
    (closest : Z * float) : Prop :=
  (closest = ((-1)%Z, infinity) /\
   forall j dj, j < n -> ~ candidate children j dj) \/
  (exists i d,
     closest = (Z.of_nat i, d) /\ i < n /\ candidate children i d /\
     forall j dj, j < n -> candidate children j dj ->
       (j < i -> (d <? dj)%float = true) /\
       (i < j -> (dj <? d)%float = false)).

(** Lines 1279-1340.  [camera] tells whether [cameraRef.current] is set and
    [photoGroup] is [photoGroupRef.current] with its children. *)
Definition findClosestPhoto
    (camera : bool) (photoGroup : option (list Child)) (intersects : list nat)
  : option Z :=
  match photoGroup with
  | None => None
  | Some children =>
      if negb camera then None
      else
        match hitPhoto (collectPhotoMeshes 0 children) intersects with
        | Some found => Some (Z.of_nat (snd found))
        | None =>
            let closestIndex :=
              fst (closestFrom 0 children ((-1)%Z, infinity)) in
            if (0 <=? closestIndex)%Z then Some closestIndex else None
        end
  end.

(** A scene with two photo groups 20 and 7 away from the ray, a light in
    between, and a third photo group out of reach. *)
Definition sampleChildren : list Child :=
  [mkChild true [10; 11] 20; mkChild false [] 1;
   mkChild true [12; 13] 7; mkChild true [14] 7].

(** The hit test as [handlePinchStart] finds it on [window]: the scene is a
    function of the screen point. *)
Definition hitTest
    (scene : float -> float -> bool * option (list Child) * list nat)
  : float -> float -> option float :=
  fun screenX screenY =>
    match scene screenX screenY with
    | (camera, photoGroup, intersects) =>
        option_map GrandTreeApp.number_of_Z
          (findClosestPhoto camera photoGroup intersects)
    end.

End Experience.

(** ** PhotoOrnaments: which photo pops up *)

Module PhotoOrnaments.

Record Vector3 : Type := mkVector3 { vx : float; vy : float; vz : float }.

(** One entry of [data], lines 191-248. *)
Record ObjData : Type := mkObjData {
  chaosPos : Vector3;
  targetPos : Vector3;
  scale : float;
  weight : float;
  textureIndex : nat;
  borderColor : string;
  currentPos : Vector3;
  chaosRotation : Vector3;
  rotationSpeed : Vector3;
  wobbleOffset : float;
  wobbleSpeed : float;
  isSelected : bool;
  centerTarget : Vector3;
  selectionProgress : float;
  originalRotation : Vector3;
  originalPosition : Vector3
}.

Definition setSelected (b : bool) (d : ObjData) : ObjData :=
  mkObjData (chaosPos d) (targetPos d) (scale d) (weight d) (textureIndex d)
    (borderColor d) (currentPos d) (chaosRotation d) (rotationSpeed d)
    (wobbleOffset d) (wobbleSpeed d) b (centerTarget d)
    (selectionProgress d) (originalRotation d) (originalPosition d).

(** [d.originalPosition.copy(v)] *)
Definition copyOriginalPosition (v : Vector3) (d : ObjData) : ObjData :=
  mkObjData (chaosPos d) (targetPos d) (scale d) (weight d) (textureIndex d)
    (borderColor d) (currentPos d) (chaosRotation d) (rotationSpeed d)
    (wobbleOffset d) (wobbleSpeed d) (isSelected d) (centerTarget d)
    (selectionProgress d) (originalRotation d) v.

(** [i === selectedPhotoIndex && selectedPhotoIndex !== null] for the array
    index [i]. *)
Definition isTheSelected (i : nat) (selectedPhotoIndex : option float) : bool :=
  match selectedPhotoIndex with
  | Some v => (GrandTreeApp.number_of_Z (Z.of_nat i) =? v)%float
  | None => false
  end.

(** Lines 251-262: the body of the [forEach]. *)
Definition select (selectedPhotoIndex : option float) (i : nat) (d : ObjData)
  : ObjData :=
  if isTheSelected i selectedPhotoIndex then
    setSelected true
      (if negb (isSelected d) then copyOriginalPosition (currentPos d) d
       else d)
  else if isSelected d then setSelected false d
  else d.

Fixpoint forEachFrom (f : nat -> ObjData -> ObjData) (i : nat)
    (data : list ObjData) : list ObjData :=
  match data with
  | [] => []
  | d :: rest => f i d :: forEachFrom f (S i) rest
  end.

(** Lines 250-264: the effect on [[selectedPhotoIndex, data]]. *)
Definition selectionEffect (selectedPhotoIndex : option float)
    (data : list ObjData) : list ObjData :=
  forEachFrom (select selectedPhotoIndex) 0 data.

(** The indices of the photos that are selected. *)
Fixpoint selectedFrom (i : nat) (data : list ObjData) : list nat :=
  match data with
  | [] => []
  | d :: rest =>
      (if isSelected d then [i] else []) ++ selectedFrom (S i) rest
  end.

(** [d.originalPosition.copy(d.currentPos)] on the photo [k] only. *)
Definition remember (k : nat) (i : nat) (d : ObjData) : ObjData :=
  if (i =? k)%nat then copyOriginalPosition (currentPos d) d else d.

(** Sample data: [n] photos at rest, none selected. *)
Definition atRest (n : nat) : list ObjData :=
  let o := mkVector3 0 0 0 in
  map (fun i =>
         mkObjData (mkVector3 1 2 3) o 1 1 (i mod 9) "#FFFAF0"
           (mkVector3 1 2 3) o o 0 1 false o 0 o (mkVector3 4 5 6))
      (seq 0 n).

End PhotoOrnaments.

(** ** GrandTreeApp over time *)

Module Session.

(** Lines 1778-1780: the button, [setSceneState(s => s === "CHAOS" ?
    "FORMED" : "CHAOS")]. *)
Definition onClickToggle (st : GrandTreeApp.State) : GrandTreeApp.State :=
  GrandTreeApp.setSceneState
    (match GrandTreeApp.sceneState st with
     | CHAOS => FORMED
     | FORMED => CHAOS
     end) st.

(** What can happen to the state of [GrandTreeApp]: a frame loop calls a
    prop, the button is clicked, or the oldest pending timeout runs, with
    the hit test it finds on [window] and the value [Math.random()] has for
    it.  A call goes through the props of the render whose effect started
    the loop, and [captured] is the [sceneState] of that render: it is
    behind the formation state when an earlier call of the same frame has
    changed it, and in a loop whose setup was still waiting for the model
    when its effect was cleaned up. *)
Inductive Event : Type :=
| Called (captured : SceneState) (c : PropCall)
| Clicked
| TimedOut (findClosestPhoto : option (float -> float -> option float))
           (random : float).

Definition step (st : GrandTreeApp.State) (e : Event) : GrandTreeApp.State :=
  match e with
  | Called captured c => GrandTreeApp.handle captured c st
  | Clicked => onClickToggle st
  | TimedOut findClosestPhoto random =>
      GrandTreeApp.runTimeout findClosestPhoto random st
  end.

Definition run (events : list Event) (st : GrandTreeApp.State)
  : GrandTreeApp.State :=
  fold_left step events st.

(** The hit test only returns ornament indices and [Math.random()] keeps to
    its range. *)
Definition wellBehaved (e : Event) : Prop :=
  match e with
  | TimedOut findClosestPhoto random =>
      GrandTreeApp.isMathRandom random = true /\
      (forall f screenX screenY i,
         findClosestPhoto = Some f -> f screenX screenY = Some i ->
         GrandTreeApp.isOrnamentIndex i)
  | _ => True
  end.

(** The photo a timeout picks, lines 1678-1687. *)
Definition chosen
    (findClosestPhoto : option (float -> float -> option float))
    (random : float) (screenX screenY : float) : float :=
  match match findClosestPhoto with
        | Some f => f screenX screenY
        | None => None
        end with
  | Some i => i
  | None =>
      GrandTreeApp.Math_floor
        (random * GrandTreeApp.CONFIG_counts_ornaments)%float
  end.

(** The events that can take the scene out of FORMED. *)
Definition leavesFormed (e : Event) : bool :=
  match e with
  | Called _ (onGesture CHAOS) => true
  | Clicked => true
  | _ => false
  end.

(** A pinch start through the props of a render in CHAOS: its guard passes
    whatever the formation state is by now. *)
Definition passesGuard (e : Event) : bool :=
  match e with
  | Called CHAOS (onPinchStart _ _) => true
  | _ => false
  end.

(** The calls of one frame, all through the props of the same render. *)
Definition frameCalls (captured : SceneState) (calls : list PropCall)
  : list Event :=
  map (Called captured) calls.

(** The selected photo, if any, is one of the 72 ornaments. *)
Definition selectionValid (st : GrandTreeApp.State) : Prop :=
  match GrandTreeApp.selectedPhotoIndex st with
  | Some i => GrandTreeApp.isOrnamentIndex i
  | None => True
  end.

(** Timeouts that run one after the other, each with the hit test and the
    random number it meets. *)
Definition timeOuts
    (met : list (option (float -> float -> option float) * float))
  : list Event :=
  map (fun m => TimedOut (fst m) (snd m)) met.

End Session.

(** ** PhotoOrnaments: how far a photo has popped up *)

Module Popup.

(** [Math.min(a, b)]: NaN when an argument is NaN, and -0 is below +0. *)
Definition Math_min (a b : float) : float :=
  if is_nan a || is_nan b then nan
  else if (b <? a)%float then b
  else if (a <? b)%float then a
  else if get_sign a then a else b.

(** [Math.max(a, b)]: NaN when an argument is NaN, and +0 is above -0. *)
Definition Math_max (a b : float) : float :=
  if is_nan a || is_nan b then nan
  else if (a <? b)%float then b
  else if (b <? a)%float then a
  else if get_sign a then b else a.

(** Lines 280-293 of the frame callback of [PhotoOrnaments]: the new
    [selectionProgress] of a photo, [delta] seconds after the last
    frame. *)
Definition nextSelectionProgress
    (state : SceneState) (delta : float) (isSelected : bool)
    (selectionProgress : float) : float :=
  if isSelected && SceneState_eqb state CHAOS then
    Math_min 1 (selectionProgress + delta * 6)%float
  else if (0 <? selectionProgress)%float then
    Math_max 0 (selectionProgress - delta * 4)%float
  else selectionProgress.

(** The progress over several frames; a frame comes with the scene state,
    the time since the last frame and whether the photo is selected. *)
Definition progressAfter (frames : list (SceneState * float * bool))
    (selectionProgress : float) : float :=
  fold_left
    (fun p frame =>
       match frame with
       | (state, delta, isSelected) =>
           nextSelectionProgress state delta isSelected p
       end)
    frames selectionProgress.

(** Between 0 and 1. *)
Definition inUnitInterval (v : float) : bool :=
  (0 <=? v)%float && (v <=? 1)%float.

(** Zeros, positive numbers and plus infinity. *)
Definition SFnonneg (a : spec_float) : bool :=
  match a with
  | S754_zero _ => true
  | S754_infinity s => negb s
  | S754_finite s _ _ => negb s
  | S754_nan => false
  end.

End Popup.

(** ** Proof automation: run the callback by cases *)

Lemma nth_error_head {A : Type} (a : A) (l : list A) :
  nth_error (a :: l) 0 = Some a.
Proof. reflexivity. Qed.

Ltac js_unfold :=
  unfold GestureController.predictWebcam, GestureController.handleGesture,
    GestureController.detectPinch, GestureController.resetPinch,
    GestureController.notOpenPalm, GestureController.PINCH_THRESHOLD,
    pinchEvaluated, pinchPredicate, currentGesture, gesturesReadable,
    classified, firstHand,
    Js.when, Js.deref, Js.bind, Js.ret, Js.call, Js.throw,
    Js.readRef, Js.writeRef, Js.log, Js.ref, Js.completion, Js.completes in *.

(** The variable or call a boolean condition starts with. *)
Ltac js_atom s :=
  lazymatch s with
  | andb ?a _ => js_atom a
  | negb ?a => js_atom a
  | _ => constr:(s)
  end.

Ltac js_case :=
  match goal with
  | |- context [match ?s with _ => _ end] =>
      lazymatch s with
      | context [match _ with _ => _ end] => fail
      | _ => let a := js_atom s in destruct a eqn:?
      end
  end.

Ltac js_simpl :=
  js_unfold; rewrite ?nth_error_head in *; cbn [fst snd app andb negb] in *.

Ltac js_run := js_simpl; repeat (js_case; js_simpl).

(** A hand of at least nine landmarks has the landmarks 0, 4 and 8. *)
Ltac js_short :=
  exfalso;
  repeat match goal with
         | H : andb _ _ = true |- _ => apply andb_prop in H; destruct H
         end;
  match goal with
  | H : nth_error ?l ?n = None, L : (9 <=? List.length ?l)%nat = true |- _ =>
      apply nth_error_None in H; apply Nat.leb_le in L; lia
  end.

(** Close a case from the equations collected on the way. *)
Ltac js_close :=
  intros; try js_short;
  repeat match goal with
         | H : Some (categoryName ?c) = Some _ |- _ =>
             injection H as H; rewrite H in *
         end;
  cbn [formationCalls moveCalls pinchCalls pinchEdges isPinchCall
       flat_map filter app In] in *;
  try discriminate; try reflexivity; try congruence;
  try (intuition congruence);
  repeat match goal with
         | H : Some _ = Some _ |- _ => injection H as H; try subst
         end;
  repeat match goal with
         | H : ?b = true |- context [?b] => rewrite H
         | H : ?b = false |- context [?b] => rewrite H
         end;
  cbn [andb negb];
  try discriminate; try reflexivity; try congruence.

(** ** Two facts on the order of binary64 numbers *)

Lemma SFcompare_antisym (a b : spec_float) :
  SFcompare b a = option_map CompOpp (SFcompare a b).
Proof.
  destruct a as [sa|sa| |sa ma ea], b as [sb|sb| |sb mb eb]; cbn;
    try reflexivity;
    try (destruct sa; reflexivity); try (destruct sb; reflexivity);
    try (destruct sa, sb; reflexivity).
  destruct sa, sb; try reflexivity;
    rewrite (Z.compare_antisym ea eb);
    destruct (ea ?= eb)%Z; cbn; try reflexivity;
    change (Pos.compare_cont Eq ?p ?q) with (Pos.compare p q);
    rewrite (Pos.compare_antisym ma mb);
    destruct (ma ?= mb)%positive; reflexivity.
Qed.

(** [a <= b] excludes [b < a]. *)
Lemma leb_not_gt (a b : float) :
  (a <=? b)%float = true -> (b <? a)%float = false.
Proof.
  rewrite leb_spec, ltb_spec. unfold SFleb, SFltb.
  rewrite (SFcompare_antisym (Prim2SF a) (Prim2SF b)).
  destruct (SFcompare (Prim2SF a) (Prim2SF b)) as [[ | | ]|]; cbn;
    congruence.
Qed.

(** ** Binary64 rounding: [Math.floor(Math.random() * 72)]

    The product of a number of [0, 1) with 72 is rounded to nearest, ties to
    even.  The lemmas below follow [SFmul] through its two right shifts to
    show that the rounded product stays below 72. *)

Section Rounding.
Import GrandTreeApp.
Local Open Scope Z_scope.

Lemma digits2_pos_size (p : positive) : digits2_pos p = Pos.size p.
Proof. induction p; cbn; congruence. Qed.

(** A positive number below [2^n] has at most [n] binary digits. *)
Lemma digits2_pos_le (p : positive) (n : Z) :
  0 <= n -> Zpos p < 2 ^ n -> Zpos (digits2_pos p) <= n.
Proof.
  intros Hn Hp. rewrite digits2_pos_size.
  destruct (Z_le_gt_dec (Zpos (Pos.size p)) n) as [H|H]; [exact H|exfalso].
  pose proof (Pos.size_le p) as L.
  assert (E : Zpos (2 ^ Pos.size p) = 2 ^ Zpos (Pos.size p)).
  { rewrite Pos2Z.inj_pow. reflexivity. }
  assert (2 ^ (n + 1) <= 2 ^ Zpos (Pos.size p)).
  { apply Z.pow_le_mono_r; lia. }
  rewrite Z.pow_add_r in * by lia.
  lia.
Qed.

(** A positive number with [n] binary digits is at least [2^(n-1)]. *)
Lemma digits2_pos_ge (p : positive) :
  2 ^ (Zpos (digits2_pos p) - 1) <= Zpos p.
Proof.
  rewrite digits2_pos_size.
  pose proof (Pos.size_le p) as L.
  assert (E : Zpos (2 ^ Pos.size p) = 2 ^ Zpos (Pos.size p)).
  { rewrite Pos2Z.inj_pow. reflexivity. }
  assert (2 ^ Zpos (Pos.size p) = 2 * 2 ^ (Zpos (Pos.size p) - 1)).
  { rewrite <- Z.pow_succ_r by lia. f_equal. lia. }
  lia.
Qed.

Lemma iter_pos_nat {A : Type} (f : A -> A) (p : positive) :
  forall a, iter_pos f p a = Nat.iter (Pos.to_nat p) f a.
Proof.
  induction p as [p IH|p IH|]; intros a; cbn [iter_pos].
  - rewrite !IH, Pos2Nat.inj_xI, <- Nat.iter_add, <- Nat.iter_succ_r.
    f_equal. lia.
  - rewrite !IH, Pos2Nat.inj_xO, <- Nat.iter_add. f_equal. lia.
  - reflexivity.
Qed.

Lemma shr_1_m (mrs : shr_record) :
  0 <= shr_m mrs -> shr_m (shr_1 mrs) = shr_m mrs / 2.
Proof.
  destruct mrs as [m r s]. cbn [shr_m]. intros H.
  rewrite <- Z.div2_div.
  destruct m as [|[p|p|]|p]; try reflexivity. lia.
Qed.

Lemma shr_1_r (mrs : shr_record) :
  0 <= shr_m mrs -> shr_r (shr_1 mrs) = Z.odd (shr_m mrs).
Proof.
  destruct mrs as [m r s]. cbn [shr_m]. intros H.
  destruct m as [|[p|p|]|p]; try reflexivity. lia.
Qed.

(** [n] right shifts give the quotient by [2^n]; the round bit is the last
    bit shifted out. *)
Lemma iter_shr_1 (mrs : shr_record) (n : nat) :
  0 <= shr_m mrs ->
  shr_m (Nat.iter n shr_1 mrs) = shr_m mrs / 2 ^ Z.of_nat n /\
  (shr_r (Nat.iter (S n) shr_1 mrs) = Z.odd (shr_m mrs / 2 ^ Z.of_nat n)).
Proof.
  intros Hm.
  assert (Q : forall k, shr_m (Nat.iter k shr_1 mrs) = shr_m mrs / 2 ^ Z.of_nat k).
  { induction k as [|k IH].
    - cbn. symmetry. apply Z.div_1_r.
    - rewrite Nat.iter_succ, shr_1_m, IH.
      + assert (P : 0 < 2 ^ Z.of_nat k) by (apply Z.pow_pos_nonneg; lia).
        rewrite Nat2Z.inj_succ, Z.pow_succ_r, Z.mul_comm by lia.
        apply Z.div_div; lia.
      + rewrite IH. apply Z.div_pos; [lia|]. apply Z.pow_pos_nonneg; lia. }
  split; [apply Q|].
  rewrite Nat.iter_succ, shr_1_r, Q; [reflexivity|].
  rewrite Q. apply Z.div_pos; [lia|]. apply Z.pow_pos_nonneg; lia.
Qed.

(** A set bit [n] puts the remainder modulo [2^(n+1)] at or above [2^n]. *)
Lemma odd_quotient_remainder (m n : Z) :
  0 <= n -> Z.odd (m / 2 ^ n) = true -> 2 ^ n <= m mod 2 ^ (n + 1).
Proof.
  intros Hn Ho.
  assert (P : 0 < 2 ^ n) by (apply Z.pow_pos_nonneg; lia).
  rewrite Z.pow_add_r, Z.pow_1_r by lia.
  rewrite Z.rem_mul_r by lia.
  rewrite Zmod_odd, Ho.
  pose proof (Z.mod_pos_bound m (2 ^ n) P). lia.
Qed.

(** Rounding to nearest after a right shift by [k] overshoots by at most
    half a unit: [2 * round * 2^k <= 2 * m + 2^k]. *)
Lemma shr_round (m e n : Z) :
  0 <= m ->
  let r := shr (shr_record_of_loc m loc_Exact) e n in
  let k := Z.max 0 n in
  snd r = e + k /\
  0 <= round_nearest_even (shr_m (fst r)) (loc_of_shr_record (fst r)) /\
  2 * round_nearest_even (shr_m (fst r)) (loc_of_shr_record (fst r)) * 2 ^ k
    <= 2 * m + 2 ^ k /\
  shr_m (fst r) = m / 2 ^ k.
Proof.
  intros Hm r k. subst r k.
  destruct n as [|p|p]; cbn [shr shr_record_of_loc fst snd].
  - cbn [shr_m loc_of_shr_record round_nearest_even Z.max Z.compare].
    change (Z.max 0 0) with 0. rewrite Z.pow_0_r, Z.div_1_r. lia.
  - replace (Z.max 0 (Zpos p)) with (Zpos p) by lia.
    rewrite iter_pos_nat.
    set (mrs := {| shr_m := m; shr_r := false; shr_s := false |}).
    assert (H0 : 0 <= shr_m mrs) by exact Hm.
    destruct (Pos2Nat.is_succ p) as [j Hj]. rewrite Hj.
    destruct (iter_shr_1 mrs (S j) H0) as [Q _].
    destruct (iter_shr_1 mrs j H0) as [_ R].
    assert (Ep : Zpos p = Z.of_nat j + 1).
    { rewrite <- positive_nat_Z, Hj. lia. }
    rewrite Ep.
    replace (Z.of_nat (S j)) with (Z.of_nat j + 1) in Q by lia.
    change (shr_m mrs) with m in *.
    set (res := Nat.iter (S j) shr_1 mrs) in *.
    assert (P : 0 < 2 ^ (Z.of_nat j + 1)) by (apply Z.pow_pos_nonneg; lia).
    assert (Pj : 0 < 2 ^ Z.of_nat j) by (apply Z.pow_pos_nonneg; lia).
    assert (E2 : 2 ^ (Z.of_nat j + 1) = 2 * 2 ^ Z.of_nat j).
    { rewrite Z.pow_add_r, Z.pow_1_r by lia. lia. }
    pose proof (Z.div_mod m (2 ^ (Z.of_nat j + 1)) ltac:(lia)) as D.
    pose proof (Z.mod_pos_bound m (2 ^ (Z.of_nat j + 1)) P) as B.
    assert (Qpos : 0 <= m / 2 ^ (Z.of_nat j + 1)) by (apply Z.div_pos; lia).
    rewrite <- Q in D, Qpos.
    split; [reflexivity|].
    split; [|split; [|exact Q]].
    + destruct res as [q [|] [|]];
        cbn [shr_m loc_of_shr_record round_nearest_even] in *;
        try destruct (Z.even q); lia.
    + destruct (shr_r res) eqn:Hr.
      * symmetry in R.
        apply odd_quotient_remainder in R; [|lia].
        destruct res as [q rr [|]]; cbn [shr_r] in Hr; subst rr;
          cbn [shr_m loc_of_shr_record round_nearest_even] in *;
          try destruct (Z.even q); nia.
      * destruct res as [q rr [|]]; cbn [shr_r] in Hr; subst rr;
          cbn [shr_m loc_of_shr_record round_nearest_even] in *; nia.
  - replace (Z.max 0 (Zneg p)) with 0 by lia.
    cbn [shr_m loc_of_shr_record round_nearest_even].
    rewrite Z.pow_0_r, Z.div_1_r. lia.
Qed.

Lemma Zdigits2_le (q n : Z) : 0 <= q < 2 ^ n -> 0 <= n -> Zdigits2 q <= n.
Proof.
  intros [H0 H1] Hn. destruct q as [|p|p]; cbn [Zdigits2]; [lia| |lia].
  apply digits2_pos_le; assumption.
Qed.

(** The product of a binary64 number [m * 2^e] below 1 with 72 rounds to a
    number whose integer part is below 72. *)
Lemma SFmul_72_floor (m : positive) (e : Z) :
  Zpos m < 2 ^ 53 -> -1074 <= e <= -53 ->
  match SFmul prec emax (S754_finite false m e)
                (S754_finite false 5066549580791808 (-46)) with
  | S754_zero false => True
  | S754_finite false m' e' => 0 <= floorZ false m' e' < 72
  | _ => False
  end.
Proof.
  intros Hm He.
  cbn [SFmul xorb]. unfold binary_round_aux, shr_fexp.
  set (M := Zpos (m * 5066549580791808)).
  set (E := e + -46).
  assert (HM : M = Zpos m * (9 * 2 ^ 49)) by (subst M; rewrite Pos2Z.inj_mul; reflexivity).
  assert (HM0 : 0 < M) by (subst M; lia).
  assert (HM1 : 2 * M + 2 ^ 53 < 144 * 2 ^ 99).
  { rewrite HM. change (2 ^ 53) with 9007199254740992 in *.
    change (2 ^ 49) with 562949953421312.
    change (2 ^ 99) with 633825300114114700748351602688. lia. }
  assert (Hd : 0 <= Zdigits2 M <= 106).
  { split; [subst M; cbn [Zdigits2]; lia|].
    apply Zdigits2_le; [|lia]. split; [lia|].
    change (2 ^ 106) with 81129638414606681695789005144064.
    change (2 ^ 99) with 633825300114114700748351602688 in HM1.
    change (2 ^ 53) with 9007199254740992 in HM1. lia. }
  set (n1 := fexp prec emax (Zdigits2 M + E) - E).
  destruct (shr_round M E n1 ltac:(lia)) as (He1 & Hq0 & Hq & _).
  destruct (shr (shr_record_of_loc M loc_Exact) E n1) as [mrs1 e1].
  cbn [fst snd] in He1, Hq0, Hq.
  set (q := round_nearest_even (shr_m mrs1) (loc_of_shr_record mrs1)) in *.
  set (k1 := Z.max 0 n1) in *.
  assert (Hk1 : 0 <= k1 <= 53).
  { subst k1 n1 E. unfold fexp, SpecFloat.emin, prec, emax. lia. }
  assert (P1 : 0 < 2 ^ k1) by (apply Z.pow_pos_nonneg; lia).
  assert (P1' : 2 ^ k1 <= 2 ^ 53) by (apply Z.pow_le_mono_r; lia).
  assert (Hq1 : 0 <= q < 2 ^ 108).
  { split; [exact Hq0|].
    change (2 ^ 108) with 324518553658426726783156020576256.
    change (2 ^ 99) with 633825300114114700748351602688 in HM1. nia. }
  set (n2 := fexp prec emax (Zdigits2 q + e1) - e1).
  destruct (shr_round q e1 n2 Hq0) as (He2 & _ & _ & Hm2).
  destruct (shr (shr_record_of_loc q loc_Exact) e1 n2) as [mrs2 e2].
  cbn [fst snd] in He2, Hm2.
  set (k2 := Z.max 0 n2) in *.
  assert (Hdq : 0 <= Zdigits2 q <= 108).
  { split; [destruct q; cbn [Zdigits2]; lia|].
    apply Zdigits2_le; lia. }
  assert (Hk2 : 0 <= k2) by (subst k2; lia).
  assert (He2' : e2 <= 9).
  { subst e2 k2 n2 e1 E. unfold fexp, SpecFloat.emin, prec, emax. lia. }
  assert (P2 : 0 < 2 ^ k2) by (apply Z.pow_pos_nonneg; lia).
  pose proof (Z.mul_div_le q (2 ^ k2) P2) as Hdiv.
  assert (Hm2' : 0 <= shr_m mrs2) by (rewrite Hm2; apply Z.div_pos; lia).
  rewrite <- Hm2 in Hdiv.
  destruct (shr_m mrs2) as [|m2|m2] eqn:Em2; [exact I| |lia].
  replace (e2 <=? emax - prec) with true
    by (symmetry; apply Z.leb_le; unfold emax, prec; lia).
  (* the value bound *)
  assert (PE : 2 ^ 99 <= 2 ^ (- E)) by (apply Z.pow_le_mono_r; subst E; lia).
  assert (PE0 : 0 < 2 ^ (- E)) by (apply Z.pow_pos_nonneg; subst E; lia).
  assert (V : Zpos m2 * 2 ^ (k1 + k2) < 72 * 2 ^ (- E))
    by (rewrite Z.pow_add_r by lia; nia).
  assert (Ee : e2 = E + (k1 + k2)) by lia.
  unfold floorZ. destruct (0 <=? e2) eqn:L.
  - apply Z.leb_le in L.
    assert (P3 : 0 < 2 ^ e2) by (apply Z.pow_pos_nonneg; lia).
    replace (2 ^ (k1 + k2)) with (2 ^ e2 * 2 ^ (- E)) in V
      by (rewrite <- Z.pow_add_r by lia; f_equal; lia).
    split; [lia|].
    apply Z.mul_lt_mono_pos_r with (p := 2 ^ (- E)); [exact PE0|].
    rewrite <- Z.mul_assoc. exact V.
  - apply Z.leb_gt in L.
    assert (P3 : 0 < 2 ^ (- e2)) by (apply Z.pow_pos_nonneg; lia).
    assert (P4 : 0 < 2 ^ (k1 + k2)) by (apply Z.pow_pos_nonneg; lia).
    replace (2 ^ (- E)) with (2 ^ (- e2) * 2 ^ (k1 + k2)) in V
      by (rewrite <- Z.pow_add_r by lia; f_equal; lia).
    split; [apply Z.div_pos; lia|].
    apply Z.div_lt_upper_bound; [lia|].
    apply Z.mul_lt_mono_pos_r with (p := 2 ^ (k1 + k2)); [exact P4|].
    rewrite (Z.mul_comm (2 ^ (- e2)) 72), <- Z.mul_assoc. exact V.
Qed.


Lemma digits2_pos_gt (p : positive) : Zpos p < 2 ^ Zpos (digits2_pos p).
Proof.
  rewrite digits2_pos_size. pose proof (Pos.size_gt p) as H.
  rewrite <- Pos2Z.inj_pow. lia.
Qed.

Lemma compare_cont_Eq_lt (p q : positive) :
  Pos.compare_cont Eq p q = Lt -> Zpos p < Zpos q.
Proof.
  intros H. exact H.
Qed.

(** The sign of a zero of [Prim2SF] is [get_sign]. *)
Lemma Prim2SF_zero_sign (u : float) (s : bool) :
  Prim2SF u = S754_zero s -> get_sign u = false -> s = false.
Proof.
  unfold Prim2SF. intros H G.
  destruct (is_nan u); [discriminate|].
  destruct (is_zero u); [congruence|].
  destruct (is_infinity u); [discriminate|].
  destruct (Z.frexp u) as [r ex].
  destruct (shr_fexp _ _ _ _ _) as [sh e'].
  destruct (shr_m sh); congruence.
Qed.





(** A binary64 number in [0, 1) is a zero or [m * 2^e] with [m < 2^53] and
    [-1074 <= e <= -53]. *)
Lemma Prim2SF_unit_interval (u : float) :
  isMathRandom u = true ->
  Prim2SF u = S754_zero false \/
  exists m e, Prim2SF u = S754_finite false m e /\
              Zpos m < 2 ^ 53 /\ -1074 <= e <= -53.
Proof.
  unfold isMathRandom. intros H.
  apply andb_prop in H. destruct H as [H H1].
  apply andb_prop in H. destruct H as [Hs H0].
  apply negb_true_iff in Hs.
  rewrite leb_spec in H0. rewrite ltb_spec in H1.
  pose proof (Prim2SF_valid u) as V.
  replace (Prim2SF 0) with (S754_zero false) in H0 by (vm_compute; reflexivity).
  replace (Prim2SF 1) with (S754_finite false 4503599627370496 (-52)) in H1
    by (vm_compute; reflexivity).
  destruct (Prim2SF u) as [s|s| |s m e] eqn:P.
  - left. f_equal. exact (Prim2SF_zero_sign u s P Hs).
  - destruct s; discriminate.
  - discriminate.
  - right. exists m, e.
    destruct s; [discriminate|]. split; [reflexivity|].
    unfold SpecFloat.valid_binary, bounded, canonical_mantissa in V.
    apply andb_prop in V. destruct V as [C _].
    apply Z.eqb_eq in C. unfold fexp, SpecFloat.emin, prec, emax in C.
    pose proof (digits2_pos_gt m) as Gt.
    pose proof (digits2_pos_ge m) as Ge.
    assert (D : Zpos (digits2_pos m) <= 53) by lia.
    assert (Hm : Zpos m < 2 ^ 53).
    { apply Z.lt_le_trans with (1 := Gt). apply Z.pow_le_mono_r; lia. }
    split; [exact Hm|]. split; [lia|].
    unfold SFltb, SFcompare in H1.
    destruct (e ?= -52) eqn:Ce.
    + apply Z.compare_eq in Ce. subst e.
      assert (D53 : Zpos (digits2_pos m) = 53) by lia.
      rewrite D53 in Ge. change (2 ^ (53 - 1)) with 4503599627370496 in Ge.
      destruct (Pos.compare_cont Eq m 4503599627370496) eqn:Cm;
        try discriminate.
      apply compare_cont_Eq_lt in Cm.
      clear - Ge Cm. lia.
    + assert (Lt : e < -52) by exact Ce. clear - Lt. lia.
    + discriminate.
Qed.

(** [Math.floor(Math.random() * 72)] is one of 0, ..., 71. *)
Lemma random_ornament_index (u : float) :
  isMathRandom u = true ->
  isOrnamentIndex (Math_floor (u * 72)%float).
Proof.
  intros H.
  assert (Z0case : forall v, Prim2SF v = S754_zero false ->
                             isOrnamentIndex (Math_floor v)).
  { intros v Hv. exists 0. split; [lia|].
    unfold Math_floor. rewrite Hv.
    rewrite <- (SF2Prim_Prim2SF v), Hv. reflexivity. }
  pose proof (mul_spec u 72) as Mul.
  replace (Prim2SF 72) with (S754_finite false 5066549580791808 (-46)) in Mul
    by (vm_compute; reflexivity).
  destruct (Prim2SF_unit_interval u H) as [P | (m & e & P & Hm & He)];
    rewrite P in Mul.
  - apply Z0case. exact Mul.
  - pose proof (SFmul_72_floor m e Hm He) as B.
    unfold SF64mul in Mul. rewrite <- Mul in B.
    destruct (Prim2SF (u * 72)) as [[|]|[|]| |[|] m' e'] eqn:R;
      try contradiction.
    + apply Z0case. exact R.
    + exists (floorZ false m' e'). split; [exact B|].
      unfold Math_floor. rewrite R. reflexivity.
Qed.

End Rounding.

(** ** Pinch events are edges of the stored pinch flag *)

Lemma pinchEdges_app (l1 l2 : list PropCall) :
  pinchEdges (l1 ++ l2) = pinchEdges l1 ++ pinchEdges l2.
Proof. apply flat_map_app. Qed.

(** One frame: the pinch calls are the edge between the flag before and
    the flag after the frame. *)
Lemma predictWebcam_edge (results : GestureRecognizerResult) (isPinching : bool) :
  pinchEdges (Js.log (GestureController.predictWebcam results isPinching)) =
  edge isPinching (Js.ref (GestureController.predictWebcam results isPinching)).
Proof.
  destruct isPinching; js_run; reflexivity.
Qed.

(** A frame on which the pinch is evaluated completes and stores the pinch
    predicate of the frame. *)
Lemma predictWebcam_evaluated
    (results : GestureRecognizerResult) (isPinching : bool) :
  pinchEvaluated results = true ->
  Js.completes (GestureController.predictWebcam results isPinching) = true /\
  Js.ref (GestureController.predictWebcam results isPinching) =
    pinchPredicate results.
Proof.
  intros H. destruct isPinching; revert H; js_run; intros H;
    try discriminate; try js_short; split; reflexivity.
Qed.

Lemma frameLoop_cons
    (results : GestureRecognizerResult) (rest : list GestureRecognizerResult)
    (isPinching : bool) :
  let r := GestureController.predictWebcam results isPinching in
  Js.log (GestureController.frameLoop (results :: rest) isPinching) =
    Js.log r ++
    (if Js.completes r
     then Js.log (GestureController.frameLoop rest (Js.ref r)) else []).
Proof.
  cbn [GestureController.frameLoop]. unfold Js.bind, Js.log, Js.ref, Js.completes, Js.completion.
  destruct (GestureController.predictWebcam results isPinching) as [[l1 p1] [[]|]];
    cbn [fst snd].
  - destruct (GestureController.frameLoop rest p1) as [[l2 p2] c2]. reflexivity.
  - symmetry. apply app_nil_r.
Qed.

(** Every sequence of frames: the pinch calls are the edges of the trace of
    the stored flag. *)
Lemma frameLoop_edges (frames : list GestureRecognizerResult) :
  forall isPinching,
    pinchEdges (Js.log (GestureController.frameLoop frames isPinching)) =
    edges isPinching (refTrace frames isPinching).
Proof.
  induction frames as [|results rest IH]; intros isPinching.
  - reflexivity.
  - rewrite frameLoop_cons. cbn [refTrace edges].
    rewrite pinchEdges_app, predictWebcam_edge. f_equal.
    destruct (Js.completes _); [apply IH | reflexivity].
Qed.

Lemma refTrace_evaluated (frames : list GestureRecognizerResult) :
  Forall (fun results => pinchEvaluated results = true) frames ->
  forall isPinching, refTrace frames isPinching = map pinchPredicate frames.
Proof.
  induction 1 as [|results rest H _ IH]; intros isPinching.
  - reflexivity.
  - cbn [refTrace map].
    destruct (predictWebcam_evaluated results isPinching H) as [-> ->].
    f_equal. apply IH.
Qed.

(** The sample hands are 0.20 and 0.05 apart. *)
Example handApart_distance :
  GestureController.distance (point 0.20 0.5) (point 0 0.5) = 0.20%float /\
  GestureController.distance (point 0.05 0.5) (point 0 0.5) = 0.05%float.
Proof. split; vm_compute; reflexivity. Qed.

(** C1, as the code has it.  Pinch calls are edge-triggered on the stored
    pinch flag: for every sequence of frames and every starting flag the
    pinch calls are exactly the edges of the flag's trace, one
    [onPinchStart] per false-to-true step, one [onPinchEnd] per
    true-to-false step and none while the flag stays.  On frames where the
    pinch is evaluated (a hand of at least 9 landmarks, current gesture not
    Open_Palm) the flag takes the value of the pinch predicate (distance
    below 0.08), so over such frames the calls are the edges of the
    predicate.  For the three frames 0.20, 0.05, 0.20 apart the calls are
    one [onPinchStart] followed by one [onPinchEnd]. *)
Theorem pinch_calls_are_edges :
  (forall frames isPinching,
     pinchEdges (Js.log (GestureController.frameLoop frames isPinching)) =
     edges isPinching (refTrace frames isPinching)) /\
  (forall frames isPinching,
     Forall (fun results => pinchEvaluated results = true) frames ->
     pinchEdges (Js.log (GestureController.frameLoop frames isPinching)) =
     edges isPinching (map pinchPredicate frames)) /\
  pinchCalls
    (Js.log (GestureController.frameLoop [apart020; apart005; apart020] false)) =
  [onPinchStart 0.025 0.5; onPinchEnd].
Proof.
  split; [|split].
  - intros frames isPinching. apply frameLoop_edges.
  - intros frames isPinching H.
    rewrite frameLoop_edges, (refTrace_evaluated frames H). reflexivity.
  - vm_compute. reflexivity.
Qed.

Lemma pinch_calls_are_edges_witness :
  Forall (fun results => pinchEvaluated results = true)
    [apart020; apart005; apart020; apart020; apart005; apart005] /\
  pinchEdges
    (Js.log (GestureController.frameLoop
       [apart020; apart005; apart020; apart020; apart005; apart005] false)) =
  [PinchStart; PinchEnd; PinchStart].
Proof.
  assert (H : Forall (fun results => pinchEvaluated results = true)
                [apart020; apart005; apart020; apart020; apart005; apart005])
    by (repeat constructor).
  split; [exact H|].
  destruct pinch_calls_are_edges as [_ [E _]].
  rewrite (E _ false H). vm_compute. reflexivity.
Defined.

(** C1 as stated fails: the pinch predicate holds on all three frames, so
    it has one false-to-true step (from the initial state) and no
    true-to-false step, yet the Open_Palm frame in the middle ends the
    pinch and the third frame starts it again. *)
Lemma palm_between_pinches_not_edges_of_predicate :
  map pinchPredicate [apart005; palm005; apart005] = [true; true; true] /\
  pinchEdges
    (Js.log (GestureController.frameLoop [apart005; palm005; apart005] false)) =
  [PinchStart; PinchEnd; PinchStart] /\
  pinchEdges
    (Js.log (GestureController.frameLoop [apart005; palm005; apart005] false)) <>
  edges false (map pinchPredicate [apart005; palm005; apart005]).
Proof.
  split; [vm_compute; reflexivity|].
  split; [vm_compute; reflexivity|].
  vm_compute. discriminate.
Qed.

(** ** Frames without a hand *)

(** C2, evaluated on the code.  On a frame without a hand
    ([results.landmarks] empty) [predictWebcam] makes no pinch call and
    leaves the stored pinch flag as it was: a flag that was true stays
    true. *)
Theorem no_hand_keeps_pinch_flag
    (results : GestureRecognizerResult) (isPinching : bool) :
  landmarks results = [] ->
  pinchCalls (Js.log (GestureController.predictWebcam results isPinching)) = [] /\
  Js.ref (GestureController.predictWebcam results isPinching) = isPinching.
Proof.
  intros H. js_unfold. rewrite H. js_run; split; reflexivity.
Qed.

Lemma no_hand_keeps_pinch_flag_witness :
  landmarks noHand = [] /\
  GestureController.predictWebcam noHand true =
    ([onMove 0%float], true, Js.Normal tt) /\
  pinchCalls (Js.log (GestureController.predictWebcam noHand true)) = [] /\
  Js.ref (GestureController.predictWebcam noHand true) = true.
Proof.
  split; [reflexivity|]. split; [reflexivity|].
  apply (no_hand_keeps_pinch_flag noHand true). reflexivity.
Defined.

(** ** Formation events *)

Lemma In_formationCalls (s : SceneState) (calls : list PropCall) :
  In (onGesture s) calls <-> In s (formationCalls calls).
Proof.
  unfold formationCalls. rewrite in_flat_map. split.
  - intros H. exists (onGesture s). split; [exact H | left; reflexivity].
  - intros [c [Hc Hs]]. destruct c; cbn in Hs; try contradiction.
    destruct Hs as [-> | []]. exact Hc.
Qed.

(** The formation calls of one frame, read off the first category. *)
Lemma predictWebcam_formationCalls
    (results : GestureRecognizerResult) (isPinching : bool) :
  formationCalls
    (Js.log (GestureController.predictWebcam results isPinching)) =
    match classified results with
    | Some c =>
        if (0.4 <? score c)%float then
          (if categoryName c =? "Open_Palm" then [CHAOS] else []) ++
          (if categoryName c =? "Closed_Fist" then [FORMED] else [])
        else []
    | None => []
    end.
Proof.
  js_run; reflexivity.
Qed.

(** C3. On every processed frame a formation call is made if and only if the
    score of the classified gesture exceeds 0.4 and its label is Open_Palm
    or Closed_Fist: Open_Palm gives exactly [onGesture CHAOS], Closed_Fist
    exactly [onGesture FORMED], and a score of at most 0.4 gives no
    formation call whatever the label. *)
Theorem formation_iff_confident_palm_or_fist
    (results : GestureRecognizerResult) (isPinching : bool) :
  let calls := Js.log (GestureController.predictWebcam results isPinching) in
  (forall s, In (onGesture s) calls <->
     exists c, classified results = Some c /\
       (0.4 <? score c)%float = true /\
       ((categoryName c = "Open_Palm" /\ s = CHAOS) \/
        (categoryName c = "Closed_Fist" /\ s = FORMED))) /\
  (forall c, classified results = Some c ->
     (0.4 <? score c)%float = true ->
     categoryName c = "Open_Palm" -> formationCalls calls = [CHAOS]) /\
  (forall c, classified results = Some c ->
     (0.4 <? score c)%float = true ->
     categoryName c = "Closed_Fist" -> formationCalls calls = [FORMED]) /\
  (forall c, classified results = Some c ->
     (score c <=? 0.4)%float = true -> formationCalls calls = []).
Proof.
  intros calls. subst calls.
  repeat split.
  - rewrite In_formationCalls, predictWebcam_formationCalls.
    destruct (classified results) as [c|]; [|intros []].
    destruct (0.4 <? score c)%float eqn:Hs; [|intros []].
    intros Hin. exists c. split; [reflexivity|]. split; [exact Hs|].
    apply in_app_or in Hin. destruct Hin as [Hin | Hin].
    + destruct (categoryName c =? "Open_Palm") eqn:Hn; [|destruct Hin].
      destruct Hin as [<- | []]. left. split; [|reflexivity].
      apply String.eqb_eq. exact Hn.
    + destruct (categoryName c =? "Closed_Fist") eqn:Hn; [|destruct Hin].
      destruct Hin as [<- | []]. right. split; [|reflexivity].
      apply String.eqb_eq. exact Hn.
  - intros [c [Hc [Hs Hn]]].
    rewrite In_formationCalls, predictWebcam_formationCalls, Hc, Hs.
    destruct Hn as [[-> ->] | [-> ->]]; cbn; auto.
  - intros c Hc Hs Hn.
    rewrite predictWebcam_formationCalls, Hc, Hs, Hn. reflexivity.
  - intros c Hc Hs Hn.
    rewrite predictWebcam_formationCalls, Hc, Hs, Hn. reflexivity.
  - intros c Hc Hs.
    rewrite predictWebcam_formationCalls, Hc, (leb_not_gt _ _ Hs).
    reflexivity.
Qed.

Lemma formation_iff_confident_palm_or_fist_witness :
  formationCalls (Js.log (GestureController.predictWebcam palm005 false)) =
    [CHAOS] /\
  formationCalls (Js.log (GestureController.predictWebcam fist005 false)) =
    [FORMED] /\
  formationCalls (Js.log (GestureController.predictWebcam weakPalm005 false)) =
    [].
Proof.
  split; [|split].
  - destruct (formation_iff_confident_palm_or_fist palm005 false)
      as (_ & H & _ & _).
    apply (H (mkCategory "Open_Palm" 0.9)); reflexivity.
  - destruct (formation_iff_confident_palm_or_fist fist005 false)
      as (_ & _ & H & _).
    apply (H (mkCategory "Closed_Fist" 0.9)); reflexivity.
  - destruct (formation_iff_confident_palm_or_fist weakPalm005 false)
      as (_ & _ & _ & H).
    apply (H (mkCategory "Open_Palm" 0.3)); reflexivity.
Defined.

(** ** Rotation speed *)

(** C4. On a frame with a hand, whose landmark 0 is [wrist], the one
    [onMove] call carries [(0.5 - wrist.x) * 0.15] when its absolute value
    exceeds 0.01 and exactly 0 when the absolute value is at most 0.01; on
    a frame without a hand it carries exactly 0. *)
Theorem rotation_speed_dead_zone
    (results : GestureRecognizerResult) (isPinching : bool) :
  gesturesReadable results = true ->
  let calls := Js.log (GestureController.predictWebcam results isPinching) in
  (forall hand wrist,
     firstHand results = Some hand -> nth_error hand 0 = Some wrist ->
     let speed := ((0.5 - x wrist) * 0.15)%float in
     ((0.01 <? PrimFloat.abs speed)%float = true -> moveCalls calls = [speed]) /\
     ((PrimFloat.abs speed <=? 0.01)%float = true ->
      moveCalls calls = [0%float])) /\
  (firstHand results = None -> moveCalls calls = [0%float]).
Proof.
  intros G calls. subst calls. split.
  - intros hand wrist Hh Hw speed. subst speed. split; intros Hs.
    + revert G Hh Hw Hs. destruct isPinching; js_run; js_close.
    + apply leb_not_gt in Hs.
      revert G Hh Hw Hs. destruct isPinching; js_run; js_close.
  - revert G. destruct isPinching; js_run; js_close.
Qed.

Lemma rotation_speed_dead_zone_witness :
  gesturesReadable leftHand = true /\
  moveCalls (Js.log (GestureController.predictWebcam leftHand false)) =
    [((0.5 - 0.1) * 0.15)%float] /\
  moveCalls (Js.log (GestureController.predictWebcam apart020 false)) =
    [0%float] /\
  moveCalls (Js.log (GestureController.predictWebcam noHand true)) =
    [0%float].
Proof.
  split; [reflexivity|]. split; [|split].
  - destruct (rotation_speed_dead_zone leftHand false eq_refl) as [H _].
    apply (H _ (point 0.1 0.9) eq_refl eq_refl). reflexivity.
  - destruct (rotation_speed_dead_zone apart020 false eq_refl) as [H _].
    apply (H _ (point 0.5 0.9) eq_refl eq_refl). reflexivity.
  - destruct (rotation_speed_dead_zone noHand true eq_refl) as [_ H].
    apply H. reflexivity.
Defined.

(** ** Open_Palm and the pinch *)

(** C5, as the code has it.  On a frame whose current gesture (score above
    0.4) is Open_Palm no [onPinchStart] is called, whatever the distance
    between thumb and index finger, and no pinch call at all is made when
    the stored flag is false.  When the stored flag is true and the hand
    has a landmark 0, the frame calls [onPinchEnd] once and clears the
    flag. *)
Theorem open_palm_never_starts_pinch
    (results : GestureRecognizerResult) (isPinching : bool) :
  currentGesture results = Some "Open_Palm" ->
  let r := GestureController.predictWebcam results isPinching in
  (forall sx sy, ~ In (onPinchStart sx sy) (Js.log r)) /\
  (isPinching = false -> pinchCalls (Js.log r) = []) /\
  (isPinching = true ->
   forall hand wrist,
     firstHand results = Some hand -> nth_error hand 0 = Some wrist ->
     pinchCalls (Js.log r) = [onPinchEnd] /\ Js.ref r = false).
Proof.
  intros G r. subst r. split; [|split].
  - intros sx sy. revert G. destruct isPinching; js_run; js_close.
  - intros ->. revert G. js_run; js_close.
  - intros -> hand wrist Hh Hw. revert G Hh Hw. js_run; js_close.
Qed.

Lemma open_palm_never_starts_pinch_witness :
  currentGesture palm005 = Some "Open_Palm" /\
  pinchPredicate palm005 = true /\
  pinchCalls (Js.log (GestureController.predictWebcam palm005 false)) = [] /\
  pinchCalls (Js.log (GestureController.predictWebcam palm005 true)) =
    [onPinchEnd].
Proof.
  split; [reflexivity|]. split; [reflexivity|]. split.
  - destruct (open_palm_never_starts_pinch palm005 false eq_refl)
      as [_ [H _]].
    apply H. reflexivity.
  - destruct (open_palm_never_starts_pinch palm005 true eq_refl)
      as [_ [_ H]].
    apply (H eq_refl _ (point 0.5 0.9) eq_refl eq_refl).
Defined.

(** C5 as stated fails: with the stored flag true, an Open_Palm frame
    (score 0.9, thumb and index finger 0.05 apart) calls [onPinchEnd]. *)
Lemma open_palm_ends_pinch :
  currentGesture palm005 = Some "Open_Palm" /\
  GestureController.predictWebcam palm005 true =
    ([onGesture CHAOS; onMove 0%float; onPinchEnd], false, Js.Normal tt) /\
  In onPinchEnd (Js.log (GestureController.predictWebcam palm005 true)).
Proof.
  split; [reflexivity|]. split; [vm_compute; reflexivity|].
  vm_compute. right. right. left. reflexivity.
Qed.

(** ** Hands with few landmarks *)

(** C6, as the code has it.  A hand reported with a wrong number of
    landmarks is not a missing hand.  As long as it has a landmark 0 the
    frame completes without exception and [onMove] carries the speed
    computed from landmark 0 with the usual dead zone.  With fewer than
    nine landmarks the pinch distance is not evaluated and the stored pinch
    flag is cleared, with one [onPinchEnd] when it was set.  With nine or
    more landmarks, 21 or not, the pinch is evaluated as for any hand. *)
Theorem malformed_hand_rotates
    (results : GestureRecognizerResult) (isPinching : bool)
    (hand : list NormalizedLandmark) (wrist : NormalizedLandmark) :
  gesturesReadable results = true ->
  firstHand results = Some hand ->
  nth_error hand 0 = Some wrist ->
  let r := GestureController.predictWebcam results isPinching in
  let speed := ((0.5 - x wrist) * 0.15)%float in
  Js.completes r = true /\
  moveCalls (Js.log r) =
    [if (0.01 <? PrimFloat.abs speed)%float then speed else 0%float] /\
  (List.length hand < 9 ->
   pinchCalls (Js.log r) = (if isPinching then [onPinchEnd] else []) /\
   Js.ref r = false) /\
  (9 <= List.length hand ->
   GestureController.notOpenPalm (currentGesture results) = true ->
   Js.ref r = pinchPredicate results /\
   pinchEdges (Js.log r) = edge isPinching (pinchPredicate results)).
Proof.
  intros G Hh Hw r speed. subst r speed.
  split; [|split; [|split]].
  - revert G Hh Hw. destruct isPinching; js_run; js_close.
  - revert G Hh Hw. destruct isPinching; js_run; js_close.
  - intros Hl. apply Nat.lt_nge in Hl.
    revert G Hh Hw. destruct isPinching; js_run; intros G Hh Hw;
      try discriminate;
      try (match goal with
           | L : (9 <=? _)%nat = true |- _ =>
               apply Nat.leb_le in L; exfalso; congruence
           end);
      split; js_close.
  - intros Hl Hp.
    assert (E : pinchEvaluated results = true).
    { unfold pinchEvaluated. rewrite G, Hh, Hp.
      apply Nat.leb_le in Hl. rewrite Hl. reflexivity. }
    destruct (predictWebcam_evaluated results isPinching E) as [_ R].
    split; [exact R|].
    rewrite predictWebcam_edge, R. reflexivity.
Qed.

Lemma malformed_hand_rotates_witness :
  gesturesReadable shortHand = true /\
  Js.completes (GestureController.predictWebcam shortHand true) = true /\
  moveCalls (Js.log (GestureController.predictWebcam shortHand true)) =
    [((0.5 - 0.1) * 0.15)%float] /\
  (pinchCalls (Js.log (GestureController.predictWebcam shortHand true)) =
     [onPinchEnd] /\
   Js.ref (GestureController.predictWebcam shortHand true) = false) /\
  (Js.ref (GestureController.predictWebcam tenLandmarks false) =
     pinchPredicate tenLandmarks /\
   pinchEdges (Js.log (GestureController.predictWebcam tenLandmarks false)) =
     edge false (pinchPredicate tenLandmarks)).
Proof.
  split; [reflexivity|].
  destruct (malformed_hand_rotates shortHand true _ (point 0.1 0.9)
              eq_refl eq_refl eq_refl) as (C & M & S & _).
  destruct (malformed_hand_rotates tenLandmarks false _ (point 0.5 0.9)
              eq_refl eq_refl eq_refl) as (_ & _ & _ & T).
  split; [exact C|]. split; [exact M|]. split.
  - apply S. cbn. lia.
  - apply T; [cbn; lia | reflexivity].
Defined.

(** C6 as stated fails: a hand of five landmarks with its wrist at x = 0.1
    is present, and the rotation speed of the frame is
    [(0.5 - 0.1) * 0.15], above the dead zone, not 0. *)
Lemma short_hand_still_rotates :
  option_map (@List.length _) (firstHand shortHand) = Some 5 /\
  moveCalls (Js.log (GestureController.predictWebcam shortHand false)) =
    [((0.5 - 0.1) * 0.15)%float] /\
  (0.01 <? (0.5 - 0.1) * 0.15)%float = true /\
  moveCalls (Js.log (GestureController.predictWebcam shortHand false)) <>
    [0%float].
Proof.
  split; [reflexivity|]. split; [reflexivity|]. split; [reflexivity|].
  intros H.
  apply (f_equal (fun l => match l with
                           | [v] => (0.01 <? v)%float
                           | _ => false
                           end)) in H.
  vm_compute in H. discriminate H.
Qed.

(** A hand reported without any landmark: reading [landmarks[0].x] throws
    after the gesture part has run, and the frame loop stops. *)
Example empty_hand_throws :
  GestureController.predictWebcam emptyHand true = ([], true, Js.TypeError) /\
  GestureController.frameLoop [emptyHand; apart005] false =
    ([], false, Js.TypeError).
Proof. split; reflexivity. Qed.

(** ** Where a pinch starts *)

(** C7. Every [onPinchStart] call carries the midpoint of the thumb tip
    (landmark 4) and the index finger tip (landmark 8) with the vertical
    axis flipped. *)
Theorem pinch_start_at_flipped_midpoint
    (results : GestureRecognizerResult) (isPinching : bool) (sx sy : float) :
  In (onPinchStart sx sy)
     (Js.log (GestureController.predictWebcam results isPinching)) ->
  exists hand thumbTip indexTip,
    firstHand results = Some hand /\
    nth_error hand 4 = Some thumbTip /\
    nth_error hand 8 = Some indexTip /\
    sx = ((x thumbTip + x indexTip) / 2)%float /\
    sy = (1 - (y thumbTip + y indexTip) / 2)%float.
Proof.
  destruct isPinching; js_run; intros Hin; cbn [In] in Hin;
    repeat (destruct Hin as [Hin | Hin]; [try discriminate Hin|]);
    try contradiction;
    injection Hin as <- <-;
    do 3 eexists; repeat split; eassumption.
Qed.

Lemma pinch_start_at_flipped_midpoint_witness :
  In (onPinchStart 0.025 0.5)
     (Js.log (GestureController.predictWebcam apart005 false)) /\
  exists hand thumbTip indexTip,
    firstHand apart005 = Some hand /\
    nth_error hand 4 = Some thumbTip /\
    nth_error hand 8 = Some indexTip /\
    0.025%float = ((x thumbTip + x indexTip) / 2)%float /\
    0.5%float = (1 - (y thumbTip + y indexTip) / 2)%float.
Proof.
  assert (H : In (onPinchStart 0.025 0.5)
                (Js.log (GestureController.predictWebcam apart005 false)))
    by (vm_compute; right; left; reflexivity).
  split; [exact H|].
  exact (pinch_start_at_flipped_midpoint apart005 false _ _ H).
Defined.

(** ** Open_Palm with a low score *)

(** C10. An Open_Palm label whose score is at most 0.4 does not suppress
    the pinch: with a hand of at least 9 landmarks the pinch is evaluated,
    the stored flag takes the value of the pinch predicate and the pinch
    calls are the edge of the flag, so a distance below 0.08 with the flag
    unset calls [onPinchStart]. *)
Theorem weak_open_palm_does_not_suppress_pinch
    (results : GestureRecognizerResult) (isPinching : bool) (c : Category)
    (hand : list NormalizedLandmark) (thumbTip indexTip : NormalizedLandmark) :
  classified results = Some c ->
  categoryName c = "Open_Palm" ->
  (score c <=? 0.4)%float = true ->
  firstHand results = Some hand ->
  9 <= List.length hand ->
  nth_error hand 4 = Some thumbTip ->
  nth_error hand 8 = Some indexTip ->
  let r := GestureController.predictWebcam results isPinching in
  let pinching := (GestureController.distance thumbTip indexTip <? 0.08)%float in
  pinchEvaluated results = true /\
  Js.ref r = pinching /\
  pinchEdges (Js.log r) = edge isPinching pinching /\
  (pinching = true -> isPinching = false ->
   pinchCalls (Js.log r) =
     [onPinchStart ((x thumbTip + x indexTip) / 2)%float
                   (1 - (y thumbTip + y indexTip) / 2)%float]).
Proof.
  intros Hc Hn Hs Hh Hl Ht Hi r pinching. subst r pinching.
  apply leb_not_gt in Hs. apply Nat.leb_le in Hl.
  assert (E : pinchEvaluated results = true).
  { revert Hc Hh. js_run; js_close. }
  split; [exact E|].
  destruct (predictWebcam_evaluated results isPinching E) as [_ R].
  assert (P : pinchPredicate results =
              (GestureController.distance thumbTip indexTip <? 0.08)%float).
  { unfold pinchPredicate. rewrite Hh, Ht, Hi. reflexivity. }
  split; [rewrite R; exact P|].
  split; [rewrite predictWebcam_edge, R, P; reflexivity|].
  intros Hp ->.
  revert Hc Hh Ht Hi Hp.
  js_run; js_close;
    unfold GestureController.screenX, GestureController.screenY; congruence.
Qed.

Lemma weak_open_palm_does_not_suppress_pinch_witness :
  classified weakPalm005 = Some (mkCategory "Open_Palm" 0.3) /\
  (0.3 <=? 0.4)%float = true /\
  pinchCalls (Js.log (GestureController.predictWebcam weakPalm005 false)) =
    [onPinchStart ((0.05 + 0) / 2)%float (1 - (0.5 + 0.5) / 2)%float].
Proof.
  split; [reflexivity|]. split; [reflexivity|].
  refine (proj2 (proj2 (proj2
    (weak_open_palm_does_not_suppress_pinch weakPalm005 false
       (mkCategory "Open_Palm" 0.3) (handApart 0.05)
       (point 0.05 0.5) (point 0 0.5)
       eq_refl eq_refl eq_refl eq_refl _ eq_refl eq_refl))) eq_refl eq_refl).
  cbn. lia.
Defined.
(** ** The scene controller *)

(** C8, as the code has it.  [onGesture] overwrites the formation state
    with the given value.  [onGesture FORMED] clears the selected photo
    when it changes the formation state, that is when the state was CHAOS,
    whatever was selected; when the state is FORMED already nothing
    happens.  This holds through the props of any render. *)
Theorem set_formation_clears_selection_on_change :
  (forall captured v st,
     GrandTreeApp.sceneState (GrandTreeApp.handle captured (onGesture v) st)
       = v) /\
  (forall captured st,
     GrandTreeApp.sceneState st = CHAOS ->
     GrandTreeApp.selectedPhotoIndex
       (GrandTreeApp.handle captured (onGesture FORMED) st) = None) /\
  (forall captured st,
     GrandTreeApp.sceneState st = FORMED ->
     GrandTreeApp.handle captured (onGesture FORMED) st = st).
Proof.
  split; [|split].
  - intros c v [s r i t]. destruct v, s; reflexivity.
  - intros c [s r i t]. cbn. intros ->. reflexivity.
  - intros c [s r i t]. cbn. intros ->. reflexivity.
Qed.

Lemma set_formation_clears_selection_on_change_witness :
  GrandTreeApp.selectedPhotoIndex
    (GrandTreeApp.handle CHAOS (onGesture FORMED)
       (GrandTreeApp.mkState CHAOS 0%float (Some 3%float) [])) = None /\
  GrandTreeApp.handle FORMED (onGesture FORMED)
    (GrandTreeApp.mkState FORMED 0%float (Some 3%float) []) =
  GrandTreeApp.mkState FORMED 0%float (Some 3%float) [].
Proof.
  destruct set_formation_clears_selection_on_change as [_ [A B]].
  split.
  - apply A. reflexivity.
  - apply B. reflexivity.
Defined.

(** C8 as stated fails.  A pinch starts in CHAOS and registers its
    timeout, a fist forms the tree before the timeout runs, the timeout
    then selects photo 0: the scene is FORMED with a photo selected, and a
    further [onGesture FORMED] leaves the photo selected. *)
Lemma formed_again_keeps_selection :
  let st :=
    GrandTreeApp.runTimeout GrandTreeApp.hitFirst 0.5
      (GrandTreeApp.handle CHAOS (onGesture FORMED)
         (GrandTreeApp.handle CHAOS (onPinchStart 0.025 0.5)
            GrandTreeApp.initial)) in
  GrandTreeApp.sceneState st = FORMED /\
  GrandTreeApp.selectedPhotoIndex st = Some 0%float /\
  GrandTreeApp.selectedPhotoIndex
    (GrandTreeApp.handle FORMED (onGesture FORMED) st) = Some 0%float /\
  GrandTreeApp.selectedPhotoIndex
    (GrandTreeApp.handle FORMED (onGesture FORMED) st) <> None.
Proof.
  cbn. repeat split. discriminate.
Qed.

(** C9, evaluated on the code.  [handlePinchStart] tests the [sceneState]
    of the render that made it, not the formation state of the moment.  On
    a frame that shows a fist with the thumb and index finger tips
    together, [predictWebcam] calls [onGesture("FORMED")] and then
    [onPinchStart], both through the props of the same render.  When that
    render was in CHAOS the pinch start is not ignored, although the
    formation state is FORMED when it comes: it registers its timeout, and
    the timeout selects a photo while the scene is FORMED. *)
Theorem fist_pinch_frame_selects_in_formed
    (results : GestureRecognizerResult)
    (findClosestPhoto : option (float -> float -> option float))
    (random : float) (st : GrandTreeApp.State) :
  currentGesture results = Some "Closed_Fist" ->
  pinchEvaluated results = true ->
  pinchPredicate results = true ->
  GrandTreeApp.sceneState st = CHAOS ->
  GrandTreeApp.timeouts st = [] ->
  let calls := Js.log (GestureController.predictWebcam results false) in
  let formed := Session.run (Session.frameCalls CHAOS calls) st in
  exists speed screenX screenY,
    calls = [onGesture FORMED; onMove speed; onPinchStart screenX screenY] /\
    GrandTreeApp.sceneState formed = FORMED /\
    GrandTreeApp.handle CHAOS (onPinchStart screenX screenY)
      (GrandTreeApp.handle CHAOS (onMove speed)
         (GrandTreeApp.handle CHAOS (onGesture FORMED) st)) <>
    GrandTreeApp.handle CHAOS (onMove speed)
      (GrandTreeApp.handle CHAOS (onGesture FORMED) st) /\
    GrandTreeApp.timeouts formed = [(screenX, screenY)] /\
    let selected :=
      Session.step formed (Session.TimedOut findClosestPhoto random) in
    GrandTreeApp.sceneState selected = FORMED /\
    GrandTreeApp.selectedPhotoIndex selected =
      Some (Session.chosen findClosestPhoto random screenX screenY).
Proof.
  intros G E P S T. cbv zeta.
  assert (L : exists speed screenX screenY,
             Js.log (GestureController.predictWebcam results false) =
             [onGesture FORMED; onMove speed; onPinchStart screenX screenY]).
  { revert G E P. js_run; intros; js_close;
      try (eexists; eexists; eexists; reflexivity). }
  destruct L as (speed & screenX & screenY & L).
  exists speed, screenX, screenY. rewrite L.
  destruct st as [s r i t]. cbn in S, T. subst s t.
  cbn. unfold GrandTreeApp.pinchTimeout, Session.chosen.
  split; [reflexivity|]. split; [reflexivity|].
  split; [discriminate|]. split; [reflexivity|].
  destruct findClosestPhoto as [f|]; [destruct (f screenX screenY)|];
    cbn; split; reflexivity.
Qed.

Lemma fist_pinch_frame_selects_in_formed_witness :
  GestureController.predictWebcam fist005 false =
    ([onGesture FORMED; onMove 0%float; onPinchStart 0.025 0.5], true,
     Js.Normal tt) /\
  let selected :=
    Session.run
      (Session.frameCalls CHAOS
         (Js.log (GestureController.predictWebcam fist005 false)) ++
       [Session.TimedOut GrandTreeApp.hitFirst 0.5])
      GrandTreeApp.initial in
  GrandTreeApp.sceneState selected = FORMED /\
  GrandTreeApp.selectedPhotoIndex selected = Some 0%float.
Proof.
  split; [vm_compute; reflexivity|].
  destruct (fist_pinch_frame_selects_in_formed fist005 GrandTreeApp.hitFirst
              0.5 GrandTreeApp.initial eq_refl eq_refl eq_refl eq_refl
              eq_refl)
    as (speed & screenX & screenY & L & _ & _ & _ & S & I).
  cbv zeta in *. unfold Session.run in *. rewrite fold_left_app.
  cbn [fold_left]. split; [exact S|].
  rewrite I.
  assert (E : [onGesture FORMED; onMove 0%float; onPinchStart 0.025 0.5] =
              [onGesture FORMED; onMove speed; onPinchStart screenX screenY])
    by (rewrite <- L; vm_compute; reflexivity).
  injection E as _ <- <-. reflexivity.
Defined.

(** ** One frame, in general *)

Ltac js_more :=
  unfold landmarksReadable, handTracked in *; js_run.

(** A label is not Open_Palm and Closed_Fist at once. *)
Ltac js_labels :=
  match goal with
  | H1 : (?n =? "Open_Palm") = true, H2 : (?n =? "Closed_Fist") = true |- _ =>
      apply String.eqb_eq in H1; apply String.eqb_eq in H2;
      rewrite H1 in H2; discriminate H2
  end.

Lemma predictWebcam_completes
    (results : GestureRecognizerResult) (isPinching : bool) :
  Js.completes (GestureController.predictWebcam results isPinching) =
    gesturesReadable results && landmarksReadable results.
Proof.
  destruct isPinching; js_more; try js_short;
    try (cbn [nth_error] in *; discriminate); reflexivity.
Qed.

Lemma predictWebcam_ref
    (results : GestureRecognizerResult) (isPinching : bool) :
  Js.ref (GestureController.predictWebcam results isPinching) =
    if handTracked results
    then pinchEvaluated results && pinchPredicate results
    else isPinching.
Proof.
  destruct isPinching; js_more; try js_short;
    try (cbn [nth_error] in *; discriminate); try reflexivity;
    js_close.
Qed.

(** X1. [predictWebcam] throws exactly when the first gesture array or the
    first hand's landmark array is empty.  By then it has called neither
    [onMove] nor a pinch prop, and the pinch flag is as it was. *)
Theorem predictWebcam_throws_on_empty_arrays
    (results : GestureRecognizerResult) (isPinching : bool) :
  let r := GestureController.predictWebcam results isPinching in
  Js.completes r = gesturesReadable results && landmarksReadable results /\
  (Js.completes r = false ->
   Js.ref r = isPinching /\ moveCalls (Js.log r) = [] /\
   pinchCalls (Js.log r) = []).
Proof.
  cbv zeta. split.
  - apply predictWebcam_completes.
  - destruct isPinching; js_more; js_close.
Qed.

Lemma predictWebcam_throws_on_empty_arrays_witness :
  Js.completes (GestureController.predictWebcam emptyHand true) = false /\
  Js.ref (GestureController.predictWebcam emptyHand true) = true /\
  moveCalls (Js.log (GestureController.predictWebcam emptyHand true)) = [] /\
  pinchCalls (Js.log (GestureController.predictWebcam emptyHand true)) = [].
Proof.
  split; [reflexivity|].
  apply (proj2 (predictWebcam_throws_on_empty_arrays emptyHand true)).
  reflexivity.
Defined.

(** X2. The calls of one frame come in a fixed order: at most one
    [onGesture], then one [onMove] (none if the frame throws), then at most
    one pinch call. *)
Theorem predictWebcam_call_order
    (results : GestureRecognizerResult) (isPinching : bool) :
  let r := GestureController.predictWebcam results isPinching in
  Js.log r =
    map onGesture (formationCalls (Js.log r)) ++
    map onMove (moveCalls (Js.log r)) ++ pinchCalls (Js.log r) /\
  List.length (formationCalls (Js.log r)) <= 1 /\
  List.length (moveCalls (Js.log r)) = (if Js.completes r then 1 else 0) /\
  List.length (pinchCalls (Js.log r)) <= 1.
Proof.
  cbv zeta.
  destruct isPinching; js_more; try js_labels; try js_short;
    try (cbn [nth_error] in *; discriminate);
    cbn; repeat split; lia.
Qed.

(** X3. The pinch flag after a frame.  When a hand is tracked the new flag
    does not depend on the old one: it is set exactly if the pinch is
    evaluated on this frame and thumb and index finger are closer than
    0.08.  Otherwise (no hand, or an exception) the flag is kept. *)
Theorem predictWebcam_flag
    (results : GestureRecognizerResult) (isPinching : bool) :
  Js.ref (GestureController.predictWebcam results isPinching) =
    if handTracked results
    then pinchEvaluated results && pinchPredicate results
    else isPinching.
Proof. apply predictWebcam_ref. Qed.

(** ** The frame loop, in general *)

Lemma frameLoop_cons_run
    (results : GestureRecognizerResult) (rest : list GestureRecognizerResult)
    (isPinching : bool) :
  GestureController.frameLoop (results :: rest) isPinching =
    Js.bind (GestureController.predictWebcam results)
            (fun _ => GestureController.frameLoop rest) isPinching.
Proof. reflexivity. Qed.

(** X4. The stored flag has no memory beyond the last hand.  After any
    run of frames that can be read, the flag is what the last frame with a
    hand gives (the pinch is evaluated there and the tips are closer than
    0.08), whatever the frames before and the flag at the start were; the
    frames without a hand that follow do not change it.  Without any hand
    the flag is the one at the start. *)
Theorem pinch_flag_follows_last_hand
    (frames : list GestureRecognizerResult) (isPinching : bool) :
  Forall (fun results =>
            gesturesReadable results && landmarksReadable results = true)
         frames ->
  let r := GestureController.frameLoop frames isPinching in
  Js.completes r = true /\
  Js.ref r =
    match lastTracked frames with
    | Some results => pinchEvaluated results && pinchPredicate results
    | None => isPinching
    end.
Proof.
  intros H. cbv zeta. revert isPinching.
  induction H as [|results rest R _ IH]; intros p.
  - split; reflexivity.
  - rewrite frameLoop_cons_run. cbn [lastTracked].
    pose proof (predictWebcam_completes results p) as C.
    pose proof (predictWebcam_ref results p) as F.
    rewrite R in C.
    unfold Js.bind, Js.completes, Js.completion, Js.ref in *.
    destruct (GestureController.predictWebcam results p) as [[l1 p1] [[]|]];
      cbn [fst snd] in *; [|discriminate C].
    specialize (IH p1).
    destruct (GestureController.frameLoop rest p1) as [[l2 p2] c2].
    cbn [fst snd] in *. destruct IH as [IC IR].
    split; [exact IC|]. rewrite IR.
    destruct (lastTracked rest); [reflexivity|].
    rewrite F. destruct (handTracked results); reflexivity.
Qed.

Lemma pinch_flag_follows_last_hand_witness :
  lastTracked [apart020; apart005; noHand; noHand] = Some apart005 /\
  Js.ref (GestureController.frameLoop [apart020; apart005; noHand; noHand]
            false) = true /\
  Js.ref (GestureController.frameLoop [apart005; apart020; noHand] true)
    = false.
Proof.
  split; [reflexivity|]. split.
  - refine (proj2 (pinch_flag_follows_last_hand
                     [apart020; apart005; noHand; noHand] false _)).
    repeat constructor.
  - refine (proj2 (pinch_flag_follows_last_hand
                     [apart005; apart020; noHand] true _)).
    repeat constructor.
Defined.

Lemma last_cons {A : Type} (l : list A) :
  forall a d, last (a :: l) d = last l a.
Proof.
  induction l as [|b l IH]; intros a d.
  - reflexivity.
  - change (last (a :: b :: l) d) with (last (b :: l) d).
    rewrite (IH b d), (IH b a). reflexivity.
Qed.

Lemma frameLoop_ref (frames : list GestureRecognizerResult) :
  forall isPinching,
    Js.ref (GestureController.frameLoop frames isPinching) =
    last (refTrace frames isPinching) isPinching.
Proof.
  induction frames as [|results rest IH]; intros p.
  - reflexivity.
  - rewrite frameLoop_cons_run. cbn [refTrace].
    unfold Js.bind, Js.ref, Js.completes, Js.completion in *.
    destruct (GestureController.predictWebcam results p) as [[l1 p1] [[]|]];
      cbn [fst snd].
    + specialize (IH p1).
      destruct (GestureController.frameLoop rest p1) as [[l2 p2] c2].
      cbn [fst snd] in *. rewrite IH, last_cons. reflexivity.
    + reflexivity.
Qed.

Lemma replay_edges (values : list bool) :
  forall before, replay before (edges before values) =
                 Some (last values before).
Proof.
  induction values as [|v rest IH]; intros before.
  - reflexivity.
  - cbn [edges]. specialize (IH v).
    rewrite last_cons.
    destruct before, v; cbn; exact IH.
Qed.

(** X5. Whatever the frames, the pinch calls alternate.  A listener that
    starts in the state of the stored flag never gets an [onPinchStart]
    during a pinch nor an [onPinchEnd] outside of one, and ends in the
    state of the stored flag. *)
Theorem pinch_calls_alternate
    (frames : list GestureRecognizerResult) (isPinching : bool) :
  replay isPinching
    (pinchEdges (Js.log (GestureController.frameLoop frames isPinching))) =
  Some (Js.ref (GestureController.frameLoop frames isPinching)).
Proof.
  rewrite frameLoop_edges, frameLoop_ref. apply replay_edges.
Qed.

(** X6. Frames without a hand, however many: each calls [onMove(0)] and
    nothing else happens to the pinch, whose flag stays as it is. *)
Theorem no_hand_frames_only_stop_rotation
    (frames : list GestureRecognizerResult) (isPinching : bool) :
  Forall (fun results => landmarks results = [] /\
                         gesturesReadable results = true) frames ->
  let r := GestureController.frameLoop frames isPinching in
  Js.completes r = true /\ Js.ref r = isPinching /\
  pinchCalls (Js.log r) = [] /\
  moveCalls (Js.log r) = repeat 0%float (List.length frames).
Proof.
  intros H. cbv zeta. induction H as [|results rest [L G] _ IH].
  - repeat split.
  - rewrite frameLoop_cons_run.
    assert (P : exists l,
               GestureController.predictWebcam results isPinching =
                 (l, isPinching, Js.Normal tt) /\
               pinchCalls l = [] /\ moveCalls l = [0%float]).
    { revert G. js_unfold. rewrite L. js_run; intros G; try discriminate;
        eexists; (split; [reflexivity|]); split; reflexivity. }
    destruct P as (l & E & Pl & Ml).
    unfold Js.bind, Js.completes, Js.completion, Js.ref, Js.log in *.
    rewrite E.
    destruct (GestureController.frameLoop rest isPinching) as [[l2 p2] c2].
    cbn [fst snd] in *. destruct IH as (C & R & Pc & Mc).
    unfold pinchCalls, moveCalls in *.
    rewrite filter_app, flat_map_app, Pl, Ml, Pc, Mc.
    repeat split; assumption.
Qed.

Lemma no_hand_frames_only_stop_rotation_witness :
  Js.ref (GestureController.frameLoop [noHand; noHand; noHand] true) = true /\
  moveCalls (Js.log (GestureController.frameLoop [noHand; noHand; noHand] true))
    = [0%float; 0%float; 0%float].
Proof.
  assert (F : Forall (fun results => landmarks results = [] /\
                                     gesturesReadable results = true)
                [noHand; noHand; noHand])
    by (repeat constructor).
  destruct (no_hand_frames_only_stop_rotation _ true F) as (_ & R & _ & M).
  split; [exact R | exact M].
Defined.

(** ** The rotation speed is a number *)

Lemma SFcompare_refl (a : spec_float) :
  a <> S754_nan -> SFcompare a a = Some Eq.
Proof.
  destruct a as [s|s| |s m e]; intros H; cbn.
  - reflexivity.
  - destruct s; reflexivity.
  - contradiction.
  - rewrite Z.compare_refl.
    change (Pos.compare_cont Eq m m) with (Pos.compare m m).
    rewrite Pos.compare_refl. destruct s; reflexivity.
Qed.

(** A number that compares above another one is not NaN. *)
Lemma ltb_abs_not_nan (a v : float) :
  (a <? PrimFloat.abs v)%float = true -> is_nan v = false.
Proof.
  rewrite ltb_spec, abs_spec. unfold is_nan. rewrite eqb_spec.
  unfold SFltb, SFeqb. intros H.
  rewrite SFcompare_refl; [reflexivity|].
  intros N. rewrite N in H.
  destruct (Prim2SF a); discriminate H.
Qed.

(** X7. [onMove] never gets NaN, whatever the landmarks are: the speed it
    gets is 0, or a number whose absolute value exceeds 0.01. *)
Theorem onMove_never_NaN
    (results : GestureRecognizerResult) (isPinching : bool) (v : float) :
  In (onMove v)
     (Js.log (GestureController.predictWebcam results isPinching)) ->
  is_nan v = false /\
  (v = 0%float \/ (0.01 <? PrimFloat.abs v)%float = true).
Proof.
  destruct isPinching; js_run; intros Hin; cbn [In] in Hin;
    repeat (destruct Hin as [Hin | Hin]; [try discriminate Hin|]);
    try contradiction;
    injection Hin as <-;
    first [ split; [reflexivity | left; reflexivity]
          | split; [eapply ltb_abs_not_nan; eassumption
                   | right; assumption] ].
Qed.

Lemma onMove_never_NaN_witness :
  Js.log (GestureController.predictWebcam
            (mkResult [[mkLandmark nan 0.9 0]] []) false) =
    [onMove 0%float] /\
  is_nan 0%float = false.
Proof.
  split; [reflexivity|].
  apply (proj1 (onMove_never_NaN (mkResult [[mkLandmark nan 0.9 0]] []) false
                  0%float (or_introl eq_refl))).
Defined.

(** ** The scene controller over time *)

Lemma step_selectionValid (st : GrandTreeApp.State) (e : Session.Event) :
  Session.wellBehaved e -> Session.selectionValid st ->
  Session.selectionValid (Session.step st e).
Proof.
  unfold Session.selectionValid.
  destruct st as [s r i t]. destruct e as [captured c| |f u]; cbn; intros W V.
  - destruct c as [v| | |]; cbn.
    + destruct v, s; cbn; auto.
    + exact V.
    + destruct captured; cbn; exact V.
    + exact I.
  - destruct s; cbn; auto.
  - destruct W as [Wu Wf]. unfold GrandTreeApp.runTimeout. cbn.
    destruct t as [|[sx sy] rest]; cbn; [exact V|].
    unfold GrandTreeApp.pinchTimeout.
    destruct f as [f|].
    + destruct (f sx sy) as [j|] eqn:Hj; cbn.
      * exact (Wf f sx sy j eq_refl Hj).
      * apply random_ornament_index. exact Wu.
    + cbn. apply random_ornament_index. exact Wu.
Qed.

(** X8. Whatever is called, clicked or timed out, and in whatever order,
    the selected photo is always null or one of the indices 0 to 71, as
    long as the hit test returns ornament indices. *)
Theorem selection_always_valid (events : list Session.Event) :
  Forall Session.wellBehaved events ->
  Session.selectionValid (Session.run events GrandTreeApp.initial).
Proof.
  intros H.
  assert (G : forall st, Session.selectionValid st ->
                         Session.selectionValid (Session.run events st)).
  { induction H as [|e rest W _ IH]; intros st V.
    - exact V.
    - cbn. apply IH. apply step_selectionValid; assumption. }
  apply G. exact I.
Qed.

Lemma selection_always_valid_witness :
  Session.selectionValid
    (Session.run
       [Session.Called CHAOS (onPinchStart 0.025 0.5);
        Session.Called CHAOS (onGesture FORMED);
        Session.TimedOut GrandTreeApp.hitNothing 0.9999999999999999;
        Session.Clicked]
       GrandTreeApp.initial).
Proof.
  apply selection_always_valid.
  repeat constructor.
  intros f sx sy i E. injection E as <-. discriminate.
Defined.

(** X9. A pinch that is released before its timeout has run still selects
    a photo: the timeout does not look at the pinch any more, and the
    photo stays selected after the pinch.  Released after the timeout, the
    pinch leaves nothing selected.  The scene is in CHAOS and the calls go
    through the props of a render in CHAOS. *)
Theorem short_pinch_leaves_photo_selected
    (screenX screenY random : float)
    (findClosestPhoto : option (float -> float -> option float))
    (st : GrandTreeApp.State) :
  GrandTreeApp.sceneState st = CHAOS ->
  GrandTreeApp.timeouts st = [] ->
  GrandTreeApp.selectedPhotoIndex
    (Session.run [Session.Called CHAOS (onPinchStart screenX screenY);
                  Session.Called CHAOS onPinchEnd;
                  Session.TimedOut findClosestPhoto random] st) =
    Some (Session.chosen findClosestPhoto random screenX screenY) /\
  GrandTreeApp.selectedPhotoIndex
    (Session.run [Session.Called CHAOS (onPinchStart screenX screenY);
                  Session.TimedOut findClosestPhoto random;
                  Session.Called CHAOS onPinchEnd] st) = None.
Proof.
  destruct st as [s r i t]. cbn. intros -> ->. cbn.
  unfold GrandTreeApp.pinchTimeout, Session.chosen.
  split; [|reflexivity].
  destruct findClosestPhoto as [f|]; [destruct (f screenX screenY)|];
    reflexivity.
Qed.

Lemma short_pinch_leaves_photo_selected_witness :
  GrandTreeApp.selectedPhotoIndex
    (Session.run [Session.Called CHAOS (onPinchStart 0.025 0.5);
                  Session.Called CHAOS onPinchEnd;
                  Session.TimedOut GrandTreeApp.hitFirst 0.5]
       GrandTreeApp.initial) = Some 0%float.
Proof.
  exact (proj1 (short_pinch_leaves_photo_selected 0.025 0.5 0.5
                  GrandTreeApp.hitFirst GrandTreeApp.initial
                  eq_refl eq_refl)).
Defined.

(** X10. What can select a photo in a formed scene.  While the tree is
    formed and no timeout is pending, nothing gets selected until the
    scene is sent back to CHAOS (by an Open_Palm or the button) or a pinch
    start comes through the props of a render in CHAOS, whose guard lets it
    pass: the pinch starts through the props of a render in FORMED are
    dropped without a timeout, and the selection stays null. *)
Theorem formed_scene_selects_nothing
    (events : list Session.Event) (st : GrandTreeApp.State) :
  GrandTreeApp.sceneState st = FORMED ->
  GrandTreeApp.timeouts st = [] ->
  GrandTreeApp.selectedPhotoIndex st = None ->
  Forall (fun e => Session.leavesFormed e = false /\
                   Session.passesGuard e = false) events ->
  let st' := Session.run events st in
  GrandTreeApp.sceneState st' = FORMED /\
  GrandTreeApp.timeouts st' = [] /\
  GrandTreeApp.selectedPhotoIndex st' = None.
Proof.
  intros S T N H. cbv zeta. revert st S T N.
  induction H as [|e rest L _ IH]; intros st S T N.
  - cbn. auto.
  - destruct L as [L G].
    cbn. apply IH; destruct st as [s r i t]; cbn in S, T, N; subst;
      destruct e as [[|] [[|]| | |]| |f u];
      try discriminate L; try discriminate G; reflexivity.
Qed.

Lemma formed_scene_selects_nothing_witness :
  GrandTreeApp.selectedPhotoIndex
    (Session.run [Session.Called FORMED (onPinchStart 0.025 0.5);
                  Session.TimedOut GrandTreeApp.hitFirst 0.5;
                  Session.Called CHAOS (onGesture FORMED);
                  Session.Called CHAOS (onMove 0.06)]
       (GrandTreeApp.mkState FORMED 0%float None [])) = None.
Proof.
  refine (proj2 (proj2 (formed_scene_selects_nothing _
            (GrandTreeApp.mkState FORMED 0%float None [])
            eq_refl eq_refl eq_refl _))).
  repeat constructor.
Defined.

(** X11. Timeouts run oldest first, one per pinch start.  When as many
    timeouts have run as were pending, none is pending any more and the
    selected photo is the one picked for the latest pinch start. *)
Theorem latest_pinch_start_wins
    (pending : list (float * float)) (screenX screenY : float)
    (met : list (option (float -> float -> option float) * float))
    (findClosestPhoto : option (float -> float -> option float))
    (random : float) (st : GrandTreeApp.State) :
  GrandTreeApp.timeouts st = pending ++ [(screenX, screenY)] ->
  List.length met = List.length pending ->
  let st' :=
    Session.run (Session.timeOuts (met ++ [(findClosestPhoto, random)])) st in
  GrandTreeApp.timeouts st' = [] /\
  GrandTreeApp.selectedPhotoIndex st' =
    Some (Session.chosen findClosestPhoto random screenX screenY) /\
  GrandTreeApp.sceneState st' = GrandTreeApp.sceneState st.
Proof.
  cbv zeta. revert met st.
  induction pending as [|[px py] pending IH]; intros met st T L.
  - destruct met; [|discriminate L].
    destruct st as [s r i t]. cbn in T. subst t. cbn.
    unfold GrandTreeApp.pinchTimeout, Session.chosen.
    destruct findClosestPhoto as [f|]; [destruct (f screenX screenY)|];
      cbn; auto.
  - destruct met as [|[f u] met]; [discriminate L|].
    cbn [app Session.timeOuts map Session.run fold_left].
    assert (E : GrandTreeApp.timeouts
                  (Session.step st (Session.TimedOut f u)) =
                pending ++ [(screenX, screenY)] /\
                GrandTreeApp.sceneState
                  (Session.step st (Session.TimedOut f u)) =
                GrandTreeApp.sceneState st).
    { destruct st as [s r i t]. cbn in T. subst t. cbn.
      unfold GrandTreeApp.pinchTimeout.
      destruct f as [f|]; [destruct (f px py)|]; cbn; auto. }
    destruct E as [Et Es].
    specialize (IH met _ Et ltac:(cbn in L; lia)).
    unfold Session.run, Session.timeOuts in IH.
    rewrite <- Es. exact IH.
Qed.

Lemma latest_pinch_start_wins_witness :
  let st := Session.run [Session.Called CHAOS (onPinchStart 0.2 0.2);
                         Session.Called CHAOS (onPinchStart 0.025 0.5)]
              GrandTreeApp.initial in
  GrandTreeApp.timeouts st =
    [(0.2%float, 0.2%float)] ++ [(0.025%float, 0.5%float)] /\
  GrandTreeApp.selectedPhotoIndex
    (Session.run (Session.timeOuts
       ([(GrandTreeApp.hitFirst, 0.5%float)] ++
        [(GrandTreeApp.hitNothing, 0.9999999999999999%float)])) st) =
    Some (Session.chosen GrandTreeApp.hitNothing 0.9999999999999999
            0.025 0.5).
Proof.
  cbv zeta. split; [reflexivity|].
  refine (proj1 (proj2 (latest_pinch_start_wins [(0.2%float, 0.2%float)] 0.025 0.5
            [(GrandTreeApp.hitFirst, 0.5%float)] GrandTreeApp.hitNothing
            0.9999999999999999
            (Session.run [Session.Called CHAOS (onPinchStart 0.2 0.2);
                          Session.Called CHAOS (onPinchStart 0.025 0.5)]
               GrandTreeApp.initial)
            eq_refl eq_refl))).
Defined.

(** ** The order of binary64 numbers *)

Ltac sf_compare :=
  repeat match goal with
         | H : context [Pos.compare_cont Eq ?p ?q] |- _ =>
             change (Pos.compare_cont Eq p q) with (Pos.compare p q) in H
         | |- context [Pos.compare_cont Eq ?p ?q] =>
             change (Pos.compare_cont Eq p q) with (Pos.compare p q)
         end;
  repeat match goal with
         | H : context [Z.compare ?a ?b] |- _ =>
             destruct (Z.compare_spec a b); cbn in H; try discriminate H
         | H : context [Pos.compare ?p ?q] |- _ =>
             destruct (Pos.compare_spec p q); cbn in H; try discriminate H
         end;
  repeat match goal with
         | |- context [Z.compare ?a ?b] =>
             destruct (Z.compare_spec a b); cbn
         | |- context [Pos.compare ?p ?q] =>
             destruct (Pos.compare_spec p q); cbn
         end;
  subst; try reflexivity; try discriminate; try lia.

Lemma SFltb_trans (a b c : spec_float) :
  SFltb a b = true -> SFltb b c = true -> SFltb a c = true.
Proof.
  unfold SFltb.
  destruct a as [[|]|[|]| |[|] ma ea], b as [[|]|[|]| |[|] mb eb],
    c as [[|]|[|]| |[|] mc ec];
    cbn; intros H1 H2; try discriminate; try reflexivity; sf_compare.
Qed.

(** [a < b] and not [c < b], for a number [c], give [a < c]. *)
Lemma SFltb_below (a b c : spec_float) :
  SFltb a b = true -> SFltb c b = false -> c <> S754_nan ->
  SFltb a c = true.
Proof.
  unfold SFltb.
  destruct a as [[|]|[|]| |[|] ma ea], b as [[|]|[|]| |[|] mb eb],
    c as [[|]|[|]| |[|] mc ec];
    cbn; intros H1 H2 H3; try discriminate; try reflexivity;
    try contradiction; sf_compare.
Qed.

Lemma ltb_trans (a b c : float) :
  (a <? b)%float = true -> (b <? c)%float = true -> (a <? c)%float = true.
Proof. rewrite !ltb_spec. apply SFltb_trans. Qed.

Lemma ltb_below (a b c d : float) :
  (a <? b)%float = true -> (c <? b)%float = false ->
  (c <? d)%float = true -> (a <? c)%float = true.
Proof.
  rewrite !ltb_spec. intros H1 H2 H3. apply SFltb_below with (b := Prim2SF b);
    try assumption.
  intros N. rewrite N in H3. discriminate H3.
Qed.

Lemma ltb_irrefl (a : float) : (a <? a)%float = false.
Proof.
  rewrite ltb_spec. unfold SFltb.
  destruct (Prim2SF a) as [s|s| |s m e] eqn:E.
  - reflexivity.
  - destruct s; reflexivity.
  - reflexivity.
  - rewrite SFcompare_refl; [reflexivity | discriminate].
Qed.

(** ** The hit test *)

Section HitTest.
Import Experience.

Lemma find_app {A : Type} (f : A -> bool) (l1 l2 : list A) :
  find f (l1 ++ l2) =
    match find f l1 with Some a => Some a | None => find f l2 end.
Proof.
  induction l1 as [|a l1 IH]; cbn; [reflexivity|].
  destruct (f a); [reflexivity | exact IH].
Qed.

Lemma find_mesh (hitMesh groupIndex : nat) (meshes : list nat) :
  match find (fun p => (fst p =? hitMesh)%nat)
             (map (fun mesh => (mesh, groupIndex)) meshes) with
  | Some p => p = (hitMesh, groupIndex) /\ In hitMesh meshes
  | None => ~ In hitMesh meshes
  end.
Proof.
  induction meshes as [|m meshes IH]; cbn; [tauto|].
  destruct (m =? hitMesh)%nat eqn:E.
  - apply Nat.eqb_eq in E. subst. auto.
  - apply Nat.eqb_neq in E.
    destruct (find _ _); [destruct IH; auto | tauto].
Qed.

(** The photo mesh found for [hitMesh] sits in the first child that is a
    group and has that mesh. *)
Lemma find_collectPhotoMeshes (hitMesh : nat) (children : list Child) :
  forall i0 p,
    find (fun p => (fst p =? hitMesh)%nat) (collectPhotoMeshes i0 children)
      = Some p ->
    exists k group,
      snd p = i0 + k /\ nth_error children k = Some group /\
      isGroup group = true /\ In hitMesh (planeMeshes group) /\
      forall k' group',
        k' < k -> nth_error children k' = Some group' ->
        isGroup group' = true -> ~ In hitMesh (planeMeshes group').
Proof.
  induction children as [|group rest IH]; intros i0 p; cbn [collectPhotoMeshes].
  - discriminate.
  - rewrite find_app.
    destruct (isGroup group) eqn:G.
    + pose proof (find_mesh hitMesh i0 (planeMeshes group)) as M.
      destruct (find _ (map _ _)) as [q|].
      * intros E. injection E as <-. destruct M as [-> Hin].
        exists 0, group. cbn. repeat split; auto. intros k' g' L. lia.
      * intros E. destruct (IH _ _ E) as (k & g & Hs & Hn & Hg & Hin & F).
        exists (S k), g. cbn. repeat split; auto; [lia|].
        intros [|k'] g' L Hn' Hg'.
        -- cbn in Hn'. injection Hn' as <-. exact M.
        -- cbn in Hn'. apply (F k' g'); auto. lia.
    + cbn [find]. intros E.
      destruct (IH _ _ E) as (k & g & Hs & Hn & Hg & Hin & F).
      exists (S k), g. cbn. repeat split; auto; [lia|].
      intros [|k'] g' L Hn' Hg'.
      * cbn in Hn'. injection Hn' as <-. congruence.
      * cbn in Hn'. apply (F k' g'); auto. lia.
Qed.

Lemma candidate_distance (children : list Child) (j : nat) (d d' : float) :
  candidate children j d -> candidate children j d' -> d = d'.
Proof.
  intros (g & N & _ & D & _) (g' & N' & _ & D' & _). congruence.
Qed.

Lemma closer_step (children : list Child) (n : nat) (group : Child)
    (closest : Z * float) :
  nth_error children n = Some group ->
  closestSoFar children n closest ->
  closestSoFar children (S n) (closer n group closest).
Proof.
  intros N Inv. unfold closer.
  destruct (isGroup group) eqn:G.
  - cbv zeta.
    destruct ((rayDistance group <? snd closest)%float) eqn:T1;
      [destruct ((rayDistance group <? maxDistance)%float) eqn:T2|];
      cbn [andb].
    + (* the child is taken *)
      right. exists n, (rayDistance group).
      split; [reflexivity|]. split; [lia|].
      split; [exists group; auto|].
      intros j dj Lj C. split; [|lia]. intros Ljn.
      destruct Inv as [[-> None] | (i & d & -> & Li & Ci & Best)].
      * exfalso. exact (None j dj Ljn C).
      * cbn [snd] in T1.
        destruct (Best j dj Ljn C) as [B1 B2].
        destruct (Nat.lt_total j i) as [L | [E | L]].
        -- apply ltb_trans with (b := d); auto.
        -- subst j. rewrite (candidate_distance _ _ _ _ C Ci). exact T1.
        -- destruct C as (gj & _ & _ & <- & Dj).
           apply ltb_below with (b := d) (d := maxDistance); auto.
    + (* too far away *)
      destruct Inv as [[-> None] | (i & d & -> & Li & Ci & Best)].
      * left. split; [reflexivity|]. intros j dj Lj C.
        destruct (Nat.eq_dec j n) as [->|Ne]; [|apply (None j dj); [lia|auto]].
        destruct C as (g & N' & _ & D & Dj). congruence.
      * right. exists i, d. split; [reflexivity|]. split; [lia|].
        split; [exact Ci|]. intros j dj Lj C.
        destruct (Nat.eq_dec j n) as [->|Ne]; [|apply Best; [lia|auto]].
        destruct C as (g & N' & _ & D & Dj). congruence.
    + (* not closer *)
      destruct Inv as [[-> None] | (i & d & -> & Li & Ci & Best)].
      * left. split; [reflexivity|]. intros j dj Lj C.
        destruct (Nat.eq_dec j n) as [->|Ne]; [|apply (None j dj); [lia|auto]].
        destruct C as (g & N' & _ & D & Dj).
        assert (g = group) by congruence. subst g dj. cbn [snd] in T1.
        assert (X : (rayDistance group <? infinity)%float = true).
        { apply ltb_trans with (b := maxDistance); [exact Dj | reflexivity]. }
        congruence.
      * right. exists i, d. split; [reflexivity|]. split; [lia|].
        split; [exact Ci|]. intros j dj Lj C.
        destruct (Nat.eq_dec j n) as [->|Ne]; [|apply Best; [lia|auto]].
        destruct C as (g & N' & _ & D & Dj).
        assert (g = group) by congruence. subst g dj. cbn [snd] in T1.
        split; [lia|]. intros _. exact T1.
  - (* not a group *)
    destruct Inv as [[-> None] | (i & d & -> & Li & Ci & Best)].
    + left. split; [reflexivity|]. intros j dj Lj C.
      destruct (Nat.eq_dec j n) as [->|Ne]; [|apply (None j dj); [lia|auto]].
      destruct C as (g & N' & G' & _). congruence.
    + right. exists i, d. split; [reflexivity|]. split; [lia|].
      split; [exact Ci|]. intros j dj Lj C.
      destruct (Nat.eq_dec j n) as [->|Ne]; [|apply Best; [lia|auto]].
      destruct C as (g & N' & G' & _). congruence.
Qed.

Lemma closestFrom_invariant (after : list Child) :
  forall before closest,
    closestSoFar (before ++ after) (List.length before) closest ->
    closestSoFar (before ++ after) (List.length (before ++ after))
      (closestFrom (List.length before) after closest).
Proof.
  induction after as [|group rest IH]; intros before closest Inv.
  - rewrite app_nil_r in *. exact Inv.
  - cbn [closestFrom].
    assert (E : before ++ group :: rest = (before ++ [group]) ++ rest)
      by (rewrite <- app_assoc; reflexivity).
    rewrite E.
    replace (S (List.length before)) with (List.length (before ++ [group]))
      by (rewrite length_app; cbn; lia).
    apply IH. rewrite <- E, length_app. cbn [List.length].
    rewrite Nat.add_1_r. apply closer_step; [|exact Inv].
    rewrite nth_error_app2, Nat.sub_diag by lia. reflexivity.
Qed.

(** The fallback loop over all children. *)
Lemma closestFrom_all (children : list Child) :
  closestSoFar children (List.length children)
    (closestFrom 0 children ((-1)%Z, infinity)).
Proof.
  apply (closestFrom_invariant children []).
  left. split; [reflexivity|]. intros j dj L. cbn in L. lia.
Qed.

Lemma candidate_in_range (children : list Child) (j : nat) (d : float) :
  candidate children j d -> j < List.length children.
Proof.
  intros (g & N & _). apply nth_error_Some. congruence.
Qed.

End HitTest.

(** An answer of the hit test is the index of a child that is a group. *)
Lemma findClosestPhoto_child
    (camera : bool) (photoGroup : option (list Experience.Child))
    (intersects : list nat) (i : Z) :
  Experience.findClosestPhoto camera photoGroup intersects = Some i ->
  exists children group,
    photoGroup = Some children /\
    (0 <= i < Z.of_nat (List.length children))%Z /\
    nth_error children (Z.to_nat i) = Some group /\
    Experience.isGroup group = true.
Proof.
  unfold Experience.findClosestPhoto.
  destruct photoGroup as [children|]; [|discriminate].
  destruct (negb camera); [discriminate|].
  destruct (Experience.hitPhoto _ _) as [found|] eqn:Hit.
  - intros E. injection E as <-.
    unfold Experience.hitPhoto in Hit.
    destruct (0 <? _)%nat; [|discriminate].
    destruct intersects as [|hitMesh rest]; [discriminate|].
    destruct (find_collectPhotoMeshes _ _ _ _ Hit)
      as (k & g & Hs & Hn & Hg & _).
    cbn in Hs. rewrite Hs. exists children, g.
    rewrite Nat2Z.id. repeat split; auto; try lia.
    apply Nat2Z.inj_lt. apply nth_error_Some. congruence.
  - destruct (closestFrom_all children)
      as [[E _] | (k & d & E & _ & C & _)]; rewrite E; cbn [fst].
    + discriminate.
    + replace (0 <=? Z.of_nat k)%Z with true
        by (symmetry; apply Z.leb_le; lia).
      intros X. injection X as <-.
      pose proof (candidate_in_range _ _ _ C) as L.
      destruct C as (g & N & G & _).
      exists children, g. rewrite Nat2Z.id. repeat split; auto; lia.
Qed.

(** X12. The hit test answers null when the camera or the photo group is
    not there yet; any other answer is the index of a child of the photo
    group, and that child is a group. *)
Theorem findClosestPhoto_is_a_child
    (camera : bool) (photoGroup : option (list Experience.Child))
    (intersects : list nat) :
  (camera = false \/ photoGroup = None ->
   Experience.findClosestPhoto camera photoGroup intersects = None) /\
  (forall i,
     Experience.findClosestPhoto camera photoGroup intersects = Some i ->
     exists children group,
       photoGroup = Some children /\
       (0 <= i < Z.of_nat (List.length children))%Z /\
       nth_error children (Z.to_nat i) = Some group /\
       Experience.isGroup group = true).
Proof.
  split.
  - intros [-> | ->]; [destruct photoGroup|]; reflexivity.
  - intros i. apply findClosestPhoto_child.
Qed.

Lemma findClosestPhoto_is_a_child_witness :
  Experience.findClosestPhoto false (Some Experience.sampleChildren) [12] =
    None /\
  Experience.findClosestPhoto true (Some Experience.sampleChildren) [] =
    Some 2%Z /\
  exists children group,
    Some Experience.sampleChildren = Some children /\
    (0 <= 2 < Z.of_nat (List.length children))%Z /\
    nth_error children (Z.to_nat 2) = Some group /\
    Experience.isGroup group = true.
Proof.
  destruct (findClosestPhoto_is_a_child false
              (Some Experience.sampleChildren) [12]) as [A _].
  destruct (findClosestPhoto_is_a_child true
              (Some Experience.sampleChildren) []) as [_ B].
  split; [apply A; left; reflexivity|].
  split; [reflexivity|].
  apply B. reflexivity.
Defined.

(** X13. With at most 72 children in the photo group, whatever the hit
    test returns is an ornament index: what [handlePinchStart] takes from
    it is as valid as what it draws at random. *)
Theorem hitTest_returns_ornament_indices
    (scene : float -> float ->
             bool * option (list Experience.Child) * list nat) :
  (forall screenX screenY camera children intersects,
     scene screenX screenY = (camera, Some children, intersects) ->
     List.length children <= 72) ->
  forall screenX screenY i,
    Experience.hitTest scene screenX screenY = Some i ->
    GrandTreeApp.isOrnamentIndex i.
Proof.
  intros Small screenX screenY i. unfold Experience.hitTest.
  destruct (scene screenX screenY) as [[camera photoGroup] intersects] eqn:S.
  destruct (Experience.findClosestPhoto camera photoGroup intersects)
    as [k|] eqn:F; [|discriminate].
  cbn. intros E. injection E as <-.
  destruct (findClosestPhoto_child camera photoGroup intersects k F)
    as (children & g & -> & R & _).
  exists k. split; [|reflexivity].
  specialize (Small _ _ _ _ _ S). lia.
Qed.

Lemma hitTest_returns_ornament_indices_witness :
  Experience.hitTest
    (fun _ _ => (true, Some Experience.sampleChildren, [13])) 0.025 0.5 =
    Some 2%float /\
  GrandTreeApp.isOrnamentIndex 2%float.
Proof.
  assert (E : Experience.hitTest
                (fun _ _ => (true, Some Experience.sampleChildren, [13]))
                0.025 0.5 = Some 2%float)
    by (vm_compute; reflexivity).
  split; [exact E|].
  refine (hitTest_returns_ornament_indices
            (fun _ _ => (true, Some Experience.sampleChildren, [13]))
            _ 0.025%float 0.5%float 2%float E).
  intros sx sy camera children intersects X. injection X as _ <- _.
  cbn. lia.
Defined.

Lemma in_collectPhotoMeshes (hitMesh : nat) (children : list Experience.Child) :
  forall i0 k group,
    nth_error children k = Some group ->
    Experience.isGroup group = true ->
    In hitMesh (Experience.planeMeshes group) ->
    In (hitMesh, i0 + k) (Experience.collectPhotoMeshes i0 children).
Proof.
  induction children as [|g rest IH]; intros i0 k group N G M.
  - destruct k; discriminate N.
  - cbn [Experience.collectPhotoMeshes]. apply in_or_app.
    destruct k as [|k]; cbn in N.
    + injection N as ->. left. rewrite G, Nat.add_0_r.
      apply in_map_iff. exists hitMesh. auto.
    + right. replace (i0 + S k) with (S i0 + k) by lia.
      apply IH with (group := group); assumption.
Qed.

(** X14. The ray wins over the distances: when the nearest object the ray
    hits is a photo mesh, the hit test answers the first child that is a
    group and has this mesh, however far the children are from the ray. *)
Theorem ray_hit_picks_its_group
    (children : list Experience.Child) (hitMesh : nat) (others : list nat)
    (k : nat) (group : Experience.Child) :
  nth_error children k = Some group ->
  Experience.isGroup group = true ->
  In hitMesh (Experience.planeMeshes group) ->
  (forall k' group',
     k' < k -> nth_error children k' = Some group' ->
     Experience.isGroup group' = true ->
     ~ In hitMesh (Experience.planeMeshes group')) ->
  Experience.findClosestPhoto true (Some children) (hitMesh :: others) =
    Some (Z.of_nat k).
Proof.
  intros N G M First.
  pose proof (in_collectPhotoMeshes hitMesh children 0 k group N G M) as Hin.
  unfold Experience.findClosestPhoto, Experience.hitPhoto. cbn [negb].
  destruct (Experience.collectPhotoMeshes 0 children) as [|q qs] eqn:C;
    [destruct Hin|].
  cbn [List.length Nat.ltb Nat.leb].
  destruct (find _ (q :: qs)) as [p|] eqn:F.
  - rewrite <- C in F.
    destruct (find_collectPhotoMeshes _ _ _ _ F)
      as (k2 & g2 & Hs & N2 & G2 & M2 & First2).
    cbn in Hs. rewrite Hs. f_equal. f_equal.
    destruct (Nat.lt_total k2 k) as [L | [E | L]].
    + exfalso. exact (First k2 g2 L N2 G2 M2).
    + exact E.
    + exfalso. exact (First2 k group L N G M).
  - exfalso. apply (find_none _ _ F) in Hin. cbn in Hin.
    rewrite Nat.eqb_refl in Hin. discriminate Hin.
Qed.

Lemma ray_hit_picks_its_group_witness :
  Experience.findClosestPhoto true (Some Experience.sampleChildren) [10; 12] =
    Some 0%Z.
Proof.
  refine (ray_hit_picks_its_group Experience.sampleChildren 10 [12] 0
            (Experience.mkChild true [10; 11] 20) eq_refl eq_refl _ _).
  - left. reflexivity.
  - intros k' g' L. lia.
Defined.

(** X15. Without a photo under the ray, the hit test falls back on the
    distances: it answers null exactly when no group child is closer than
    15 to the ray, and otherwise the nearest such child, the first one
    among equally near ones. *)
Theorem no_ray_hit_picks_nearest_group
    (children : list Experience.Child) (intersects : list nat) :
  match intersects with
  | hitMesh :: _ =>
      forall k group,
        nth_error children k = Some group ->
        Experience.isGroup group = true ->
        ~ In hitMesh (Experience.planeMeshes group)
  | [] => True
  end ->
  let answer := Experience.findClosestPhoto true (Some children) intersects in
  (answer = None /\ forall j dj, ~ Experience.candidate children j dj) \/
  (exists i d,
     answer = Some (Z.of_nat i) /\ Experience.candidate children i d /\
     forall j dj, Experience.candidate children j dj ->
       (j < i -> (d <? dj)%float = true) /\
       (i < j -> (dj <? d)%float = false)).
Proof.
  intros NoHit. cbv zeta.
  assert (H : Experience.hitPhoto
                (Experience.collectPhotoMeshes 0 children) intersects = None).
  { unfold Experience.hitPhoto.
    destruct (0 <? _)%nat; [|reflexivity].
    destruct intersects as [|hitMesh rest]; [reflexivity|].
    destruct (find _ _) as [p|] eqn:F; [exfalso|reflexivity].
    destruct (find_collectPhotoMeshes _ _ _ _ F)
      as (k & g & _ & N & G & M & _).
    exact (NoHit k g N G M). }
  unfold Experience.findClosestPhoto. cbn [negb]. rewrite H.
  destruct (closestFrom_all children)
    as [[E None] | (i & d & E & _ & C & Best)]; rewrite E; cbn [fst].
  - left. split; [reflexivity|]. intros j dj Cj.
    exact (None j dj (candidate_in_range _ _ _ Cj) Cj).
  - right. exists i, d.
    replace (0 <=? Z.of_nat i)%Z with true
      by (symmetry; apply Z.leb_le; lia).
    split; [reflexivity|]. split; [exact C|].
    intros j dj Cj. exact (Best j dj (candidate_in_range _ _ _ Cj) Cj).
Qed.

Lemma no_ray_hit_picks_nearest_group_witness :
  Experience.findClosestPhoto true (Some Experience.sampleChildren) [99] =
    Some 2%Z /\
  ((Experience.findClosestPhoto true (Some Experience.sampleChildren) [99] =
      None /\
    forall j dj, ~ Experience.candidate Experience.sampleChildren j dj) \/
   exists i d,
     Experience.findClosestPhoto true (Some Experience.sampleChildren) [99] =
       Some (Z.of_nat i) /\
     Experience.candidate Experience.sampleChildren i d /\
     forall j dj, Experience.candidate Experience.sampleChildren j dj ->
       (j < i -> (d <? dj)%float = true) /\
       (i < j -> (dj <? d)%float = false)).
Proof.
  split; [reflexivity|].
  apply (no_ray_hit_picks_nearest_group Experience.sampleChildren [99]).
  intros k g N G M.
  destruct k as [|[|[|[|k]]]]; cbn in N;
    try (destruct k; discriminate N);
    injection N as <-; cbn in M; try discriminate G;
    repeat (destruct M as [M|M]; [discriminate M|]); exact M.
Defined.

(** ** Which photo pops up *)

Section Photos.
Import PhotoOrnaments.

Lemma forEachFrom_ext (f g : nat -> ObjData -> ObjData) (data : list ObjData) :
  forall i0,
    (forall i d, i0 <= i < i0 + List.length data -> In d data ->
                 f i d = g i d) ->
    forEachFrom f i0 data = forEachFrom g i0 data.
Proof.
  induction data as [|d rest IH]; intros i0 E; [reflexivity|].
  cbn [forEachFrom]. f_equal.
  - apply E; [cbn; lia | left; reflexivity].
  - apply IH. intros i d' R Hin. apply E; [cbn; lia | right; exact Hin].
Qed.

Lemma forEachFrom_compose (f g : nat -> ObjData -> ObjData)
    (data : list ObjData) :
  forall i0,
    forEachFrom g i0 (forEachFrom f i0 data) =
    forEachFrom (fun i d => g i (f i d)) i0 data.
Proof.
  induction data as [|d rest IH]; intros i0; [reflexivity|].
  cbn [forEachFrom]. f_equal. apply IH.
Qed.

Lemma forEachFrom_id (data : list ObjData) :
  forall i0, forEachFrom (fun _ d => d) i0 data = data.
Proof.
  induction data as [|d rest IH]; intros i0; [reflexivity|].
  cbn [forEachFrom]. f_equal. apply IH.
Qed.

Lemma isSelected_select (sel : option float) (i : nat) (d : ObjData) :
  isSelected (select sel i d) = isTheSelected i sel.
Proof.
  unfold select. destruct (isTheSelected i sel); [reflexivity|].
  destruct (isSelected d) eqn:S; [reflexivity | exact S].
Qed.

Lemma selectedFrom_selectionEffect (sel : option float) (data : list ObjData) :
  forall i0,
    selectedFrom i0 (forEachFrom (select sel) i0 data) =
    filter (fun i => isTheSelected i sel) (seq i0 (List.length data)).
Proof.
  induction data as [|d rest IH]; intros i0; [reflexivity|].
  cbn [forEachFrom selectedFrom List.length seq filter].
  rewrite isSelected_select, IH.
  destruct (isTheSelected i0 sel); reflexivity.
Qed.

(** The array indices 0 to 71 are told apart by [===]. *)
Lemma isTheSelected_index (i k : nat) :
  i < 72 -> k < 72 ->
  isTheSelected i (Some (GrandTreeApp.number_of_Z (Z.of_nat k))) =
    (i =? k)%nat.
Proof.
  intros Hi Hk.
  assert (T : forallb (fun i =>
                forallb (fun k =>
                  Bool.eqb
                    (isTheSelected i
                       (Some (GrandTreeApp.number_of_Z (Z.of_nat k))))
                    (i =? k)%nat)
                  (seq 0 72))
                (seq 0 72) = true)
    by (vm_compute; reflexivity).
  rewrite forallb_forall in T.
  specialize (T i ltac:(apply in_seq; lia)).
  rewrite forallb_forall in T.
  specialize (T k ltac:(apply in_seq; lia)).
  apply Bool.eqb_prop. exact T.
Qed.

Lemma filter_past_index (k m : nat) :
  forall j, k < j -> filter (fun i => (i =? k)%nat) (seq j m) = [].
Proof.
  induction m as [|m IH]; intros j L; [reflexivity|].
  cbn [seq filter].
  replace (j =? k)%nat with false by (symmetry; apply Nat.eqb_neq; lia).
  apply IH. lia.
Qed.

Lemma filter_the_index (k n : nat) :
  forall i0, i0 <= k < i0 + n ->
             filter (fun i => (i =? k)%nat) (seq i0 n) = [k].
Proof.
  induction n as [|n IH]; intros i0 R; [lia|].
  cbn [seq filter]. destruct (i0 =? k)%nat eqn:E.
  - apply Nat.eqb_eq in E. subst.
    rewrite filter_past_index by lia. reflexivity.
  - apply Nat.eqb_neq in E. apply IH. lia.
Qed.

(** X16. Exactly the selected photo pops up.  With 72 photos and an
    ornament index selected, the effect marks the photo at that index and
    no other; with null selected it marks none. *)
Theorem selection_marks_one_photo (data : list ObjData) :
  List.length data = 72 ->
  selectedFrom 0 (selectionEffect None data) = [] /\
  forall v, GrandTreeApp.isOrnamentIndex v ->
    exists k, k < 72 /\ v = GrandTreeApp.number_of_Z (Z.of_nat k) /\
              selectedFrom 0 (selectionEffect (Some v) data) = [k].
Proof.
  intros L. unfold selectionEffect. split.
  - rewrite selectedFrom_selectionEffect. cbn [isTheSelected].
    induction (seq 0 (List.length data)); [reflexivity | assumption].
  - intros v (z & R & ->).
    assert (Hk : Z.to_nat z < 72) by lia.
    assert (Ez : z = Z.of_nat (Z.to_nat z)) by (rewrite Z2Nat.id; lia).
    revert Hk Ez. generalize (Z.to_nat z). intros k Hk ->.
    exists k. split; [exact Hk|]. split; [reflexivity|].
    rewrite selectedFrom_selectionEffect, L.
    rewrite (filter_ext_in _ (fun i => (i =? k)%nat)).
    + apply filter_the_index. lia.
    + intros i Hin. apply in_seq in Hin.
      apply isTheSelected_index; lia.
Qed.

Lemma selection_marks_one_photo_witness :
  List.length (atRest 72) = 72 /\
  GrandTreeApp.isOrnamentIndex 71%float /\
  exists k, k < 72 /\ 71%float = GrandTreeApp.number_of_Z (Z.of_nat k) /\
            selectedFrom 0 (selectionEffect (Some 71%float) (atRest 72)) = [k].
Proof.
  assert (I : GrandTreeApp.isOrnamentIndex 71%float).
  { exists 71%Z. split; [lia | vm_compute; reflexivity]. }
  split; [reflexivity|]. split; [exact I|].
  exact (proj2 (selection_marks_one_photo (atRest 72) eq_refl) _ I).
Defined.


(** X18. Picking a photo and letting it go: from photos none of which is
    selected, selecting photo [k] and then null leaves every photo as it
    was, except that photo [k] now remembers in [originalPosition] the
    position it had when it was picked. *)
Theorem select_then_release (data : list ObjData) (k : nat) :
  List.length data = 72 -> k < 72 ->
  Forall (fun d => isSelected d = false) data ->
  selectionEffect None
    (selectionEffect (Some (GrandTreeApp.number_of_Z (Z.of_nat k))) data) =
  forEachFrom (remember k) 0 data.
Proof.
  intros L Hk Rest. unfold selectionEffect. rewrite forEachFrom_compose.
  apply forEachFrom_ext. intros i d R Hin.
  rewrite Forall_forall in Rest. specialize (Rest d Hin).
  unfold select, remember.
  rewrite isTheSelected_index by lia.
  change (isTheSelected i None) with false. cbv iota.
  destruct (i =? k)%nat.
  - rewrite Rest. destruct d. cbn in *. subst. reflexivity.
  - rewrite Rest. rewrite Rest. reflexivity.
Qed.

Lemma select_then_release_witness :
  selectionEffect None
    (selectionEffect (Some (GrandTreeApp.number_of_Z (Z.of_nat 3)))
       (atRest 72)) =
  forEachFrom (remember 3) 0 (atRest 72).
Proof.
  apply (select_then_release (atRest 72) 3 eq_refl).
  - lia.
  - unfold atRest. apply Forall_forall. intros d Hin.
    apply in_map_iff in Hin. destruct Hin as (i & <- & _). reflexivity.
Defined.

End Photos.

(** ** The progress of a popup stays between 0 and 1 *)

Section Progress.
Import Popup.
Local Open Scope Z_scope.

Lemma leb_zero_nonneg (v : float) :
  (0 <=? v)%float = SFnonneg (Prim2SF v).
Proof.
  rewrite leb_spec.
  replace (Prim2SF 0) with (S754_zero false) by (vm_compute; reflexivity).
  destruct (Prim2SF v) as [s|[|]| |[|] m e]; reflexivity.
Qed.

Lemma SFltb_leb (a b : spec_float) : SFltb a b = true -> SFleb a b = true.
Proof.
  unfold SFltb, SFleb. destruct (SFcompare a b) as [[| |]|]; congruence.
Qed.

Lemma SFnot_gt_leb (a b : spec_float) :
  SFltb b a = false -> a <> S754_nan -> b <> S754_nan -> SFleb a b = true.
Proof.
  unfold SFltb, SFleb. rewrite (SFcompare_antisym a b).
  intros H Na Nb.
  destruct (SFcompare a b) as [[| |]|] eqn:C; cbn in H;
    try reflexivity; try discriminate.
  destruct a as [sa|sa| |sa ma ea], b as [sb|sb| |sb mb eb];
    cbn in C; try discriminate; contradiction.
Qed.

(** Rounding a positive integer keeps the sign. *)
Lemma binary_round_aux_sign (s : bool) (m : positive) (e : Z) :
  match binary_round_aux prec emax s (Zpos m) e loc_Exact with
  | S754_zero s' | S754_infinity s' | S754_finite s' _ _ => s' = s
  | S754_nan => False
  end.
Proof.
  unfold binary_round_aux, shr_fexp.
  set (n1 := fexp prec emax (Zdigits2 (Zpos m) + e) - e).
  destruct (shr_round (Zpos m) e n1 ltac:(lia)) as (_ & Hq0 & _ & _).
  destruct (shr (shr_record_of_loc (Zpos m) loc_Exact) e n1) as [mrs1 e1].
  cbn [fst snd] in Hq0.
  set (q := round_nearest_even (shr_m mrs1) (loc_of_shr_record mrs1)) in *.
  set (n2 := fexp prec emax (Zdigits2 q + e1) - e1).
  destruct (shr_round q e1 n2 Hq0) as (_ & _ & _ & Hm2).
  destruct (shr (shr_record_of_loc q loc_Exact) e1 n2) as [mrs2 e2].
  cbn [fst snd] in Hm2.
  assert (P : 0 <= shr_m mrs2).
  { rewrite Hm2. apply Z.div_pos; [exact Hq0|].
    apply Z.pow_pos_nonneg; lia. }
  destruct (shr_m mrs2) as [|m2|m2]; [reflexivity| |lia].
  destruct (e2 <=? emax - prec); reflexivity.
Qed.

Lemma binary_round_aux_nonneg (m : positive) (e : Z) :
  SFnonneg (binary_round_aux prec emax false (Zpos m) e loc_Exact) = true.
Proof.
  pose proof (binary_round_aux_sign false m e) as S.
  destruct (binary_round_aux _ _ _ _ _ _) as [s|s| |s m' e'];
    cbn; try rewrite S; try reflexivity. contradiction.
Qed.

Lemma binary_normalize_pos_nonneg (m : positive) (e : Z) :
  SFnonneg (binary_normalize prec emax (Zpos m) e false) = true.
Proof.
  cbn [binary_normalize]. unfold binary_round.
  destruct (shl_align m e _) as [mz ez]. apply binary_round_aux_nonneg.
Qed.

Lemma SFmul_nonneg (a b : spec_float) :
  SFnonneg a = true -> SFnonneg b = true ->
  SFmul prec emax a b <> S754_nan ->
  SFnonneg (SFmul prec emax a b) = true.
Proof.
  destruct a as [sa|[|]| |[|] ma ea], b as [sb|[|]| |[|] mb eb];
    cbn; intros Ha Hb N; try discriminate; try reflexivity;
    try (exfalso; apply N; reflexivity).
  apply binary_round_aux_nonneg.
Qed.

Lemma SFadd_nonneg (a b : spec_float) :
  SFnonneg a = true -> SFnonneg b = true ->
  SFnonneg (SFadd prec emax a b) = true.
Proof.
  destruct a as [[|]|[|]| |[|] ma ea], b as [[|]|[|]| |[|] mb eb];
    cbn [SFnonneg SFadd negb]; intros Ha Hb; try discriminate;
    try reflexivity.
  cbn [cond_Zopp]. apply binary_normalize_pos_nonneg.
Qed.

Lemma SFmul_finite_nonneg (a : spec_float) (m : positive) (e : Z) :
  SFnonneg a = true ->
  SFnonneg (SFmul prec emax a (S754_finite false m e)) = true.
Proof.
  destruct a as [sa|[|]| |[|] ma ea]; cbn; intros Ha;
    try discriminate; try reflexivity.
  apply binary_round_aux_nonneg.
Qed.

Lemma compare_cont_Eq_gt (p q : positive) :
  Pos.compare_cont Eq p q = Gt -> Zpos q < Zpos p.
Proof. intros H. apply Z.gt_lt. exact H. Qed.

Lemma compare_cont_Eq_eq (p q : positive) :
  Pos.compare_cont Eq p q = Eq -> Zpos p = Zpos q.
Proof. intros H. f_equal. apply Pos.compare_eq. exact H. Qed.

(** A positive integer [m * 2^e] that is at most 1 rounds to at most 1. *)
Lemma binary_round_aux_le_one (m : positive) (e : Z) :
  e <= -52 -> Zpos m <= 2 ^ (- e) ->
  SFleb (binary_round_aux prec emax false (Zpos m) e loc_Exact)
        (S754_finite false 4503599627370496 (-52)) = true.
Proof.
  intros He Hm.
  unfold binary_round_aux, shr_fexp.
  set (M := Zpos m) in *.
  assert (PN : 0 < 2 ^ (- e)) by (apply Z.pow_pos_nonneg; lia).
  assert (Hd : 0 <= Zdigits2 M <= - e + 1).
  { split; [subst M; cbn [Zdigits2]; lia|].
    apply Zdigits2_le; [|lia]. split; [subst M; lia|].
    rewrite Z.pow_add_r, Z.pow_1_r by lia. lia. }
  set (n1 := fexp prec emax (Zdigits2 M + e) - e).
  destruct (shr_round M e n1 ltac:(subst M; lia)) as (He1 & Hq0 & Hq & _).
  destruct (shr (shr_record_of_loc M loc_Exact) e n1) as [mrs1 e1].
  cbn [fst snd] in He1, Hq0, Hq.
  set (q := round_nearest_even (shr_m mrs1) (loc_of_shr_record mrs1)) in *.
  set (k1 := Z.max 0 n1) in *.
  assert (Hk1 : 0 <= k1 /\ e1 <= -52).
  { subst e1 k1 n1. unfold fexp, SpecFloat.emin, prec, emax. lia. }
  destruct Hk1 as [Hk1 He1'].
  assert (P1 : 0 < 2 ^ k1) by (apply Z.pow_pos_nonneg; lia).
  assert (PB : 0 < 2 ^ (- e1)) by (apply Z.pow_pos_nonneg; lia).
  assert (Split : 2 ^ (- e) = 2 ^ k1 * 2 ^ (- e1)).
  { rewrite <- Z.pow_add_r by lia. f_equal. lia. }
  assert (Hq1 : q <= 2 ^ (- e1)).
  { rewrite Split in Hm. clear - Hq Hm P1 PB Hq0.
    assert (2 * q * 2 ^ k1 <= (2 * 2 ^ (- e1) + 1) * 2 ^ k1) by nia.
    apply Z.mul_le_mono_pos_r in H; lia. }
  assert (Hdq : 0 <= Zdigits2 q <= - e1 + 1).
  { split; [destruct q; cbn [Zdigits2]; lia|].
    apply Zdigits2_le; [|lia]. split; [exact Hq0|].
    rewrite Z.pow_add_r, Z.pow_1_r by lia. lia. }
  set (n2 := fexp prec emax (Zdigits2 q + e1) - e1).
  destruct (shr_round q e1 n2 Hq0) as (He2 & _ & _ & Hm2).
  destruct (shr (shr_record_of_loc q loc_Exact) e1 n2) as [mrs2 e2].
  cbn [fst snd] in He2, Hm2.
  set (k2 := Z.max 0 n2) in *.
  assert (Hk2 : 0 <= k2 /\ e2 <= -52).
  { subst e2 k2 n2. unfold fexp, SpecFloat.emin, prec, emax. lia. }
  destruct Hk2 as [Hk2 He2'].
  assert (P2 : 0 < 2 ^ k2) by (apply Z.pow_pos_nonneg; lia).
  pose proof (Z.mul_div_le q (2 ^ k2) P2) as Hdiv.
  assert (Hm2' : 0 <= shr_m mrs2) by (rewrite Hm2; apply Z.div_pos; lia).
  rewrite <- Hm2 in Hdiv.
  destruct (shr_m mrs2) as [|m2|m2] eqn:Em2; [reflexivity| |lia].
  replace (e2 <=? emax - prec) with true
    by (symmetry; apply Z.leb_le; unfold emax, prec; lia).
  unfold SFleb, SFcompare.
  destruct (Z.compare_spec e2 (-52)) as [E|L|G]; [|reflexivity|lia].
  assert (Hm2le : Zpos m2 <= 4503599627370496).
  { assert (S2 : 2 ^ (- e1) = 2 ^ k2 * 2 ^ 52).
    { rewrite <- Z.pow_add_r by lia. f_equal. lia. }
    rewrite S2 in Hq1.
    change (2 ^ 52) with 4503599627370496 in Hq1.
    clear - Hdiv Hq1 P2.
    assert (2 ^ k2 * Zpos m2 <= 2 ^ k2 * 4503599627370496) by lia.
    apply Z.mul_le_mono_pos_l in H; lia. }
  destruct (Pos.compare_cont Eq m2 4503599627370496) eqn:C;
    try reflexivity.
  exfalso. apply compare_cont_Eq_gt in C. clear - C Hm2le. lia.
Qed.

Lemma iter_xO (m d : positive) :
  Zpos (Pos.iter xO m d) = Zpos m * 2 ^ Zpos d.
Proof.
  induction d as [|d IH] using Pos.peano_ind.
  - cbn. lia.
  - rewrite Pos.iter_succ, Pos2Z.inj_xO, IH, Pos2Z.inj_succ, Z.pow_succ_r by lia.
    lia.
Qed.

(** Aligning a mantissa to a smaller exponent keeps the value. *)
Lemma shl_align_value (m : positive) (e e' : Z) :
  let r := shl_align m e e' in
  snd r = Z.min e e' /\ Zpos (fst r) = Zpos m * 2 ^ (e - snd r).
Proof.
  unfold shl_align. destruct (e' - e) as [|d|d] eqn:E; cbn [fst snd].
  - split; [lia|]. rewrite Z.sub_diag. cbn. lia.
  - split; [lia|]. rewrite Z.sub_diag. cbn. lia.
  - split; [lia|]. rewrite iter_xO. f_equal. f_equal. lia.
Qed.

Lemma finite_le_one (m : positive) (e : Z) :
  e <= -52 -> Zpos m <= 2 ^ (- e) ->
  SFleb (S754_finite false m e)
        (S754_finite false 4503599627370496 (-52)) = true.
Proof.
  intros He Hm. unfold SFleb, SFcompare.
  destruct (Z.compare_spec e (-52)) as [E|L|G]; [|reflexivity|lia].
  subst e. change (2 ^ (- -52)) with 4503599627370496 in Hm.
  destruct (Pos.compare_cont Eq m 4503599627370496) eqn:C; try reflexivity.
  exfalso. apply compare_cont_Eq_gt in C. clear - C Hm. lia.
Qed.

(** A binary64 number in (0, 1]. *)
Lemma Prim2SF_unit (p : float) :
  (0 <? p)%float = true -> (p <=? 1)%float = true ->
  exists m e, Prim2SF p = S754_finite false m e /\
              e <= -52 /\ Zpos m <= 2 ^ (- e).
Proof.
  rewrite ltb_spec, leb_spec. intros H0 H1.
  pose proof (Prim2SF_valid p) as V.
  replace (Prim2SF 0) with (S754_zero false) in H0 by (vm_compute; reflexivity).
  replace (Prim2SF 1) with (S754_finite false 4503599627370496 (-52)) in H1
    by (vm_compute; reflexivity).
  destruct (Prim2SF p) as [s|[|]| |[|] m e]; try discriminate.
  exists m, e. split; [reflexivity|].
  unfold SpecFloat.valid_binary, bounded, canonical_mantissa in V.
  apply andb_prop in V. destruct V as [C _].
  apply Z.eqb_eq in C. unfold fexp, SpecFloat.emin, prec, emax in C.
  pose proof (digits2_pos_gt m) as Gt.
  assert (D : Zpos (digits2_pos m) <= 53) by lia.
  assert (Hm : Zpos m < 2 ^ 53).
  { apply Z.lt_le_trans with (1 := Gt). apply Z.pow_le_mono_r; lia. }
  unfold SFleb, SFcompare in H1.
  destruct (Z.compare_spec e (-52)) as [E|L|G]; [| |discriminate].
  - subst e. split; [lia|]. change (2 ^ (- -52)) with 4503599627370496.
    destruct (Pos.compare_cont Eq m 4503599627370496) eqn:Cm;
      try discriminate.
    + apply compare_cont_Eq_eq in Cm. clear - Cm. lia.
    + apply compare_cont_Eq_lt in Cm. clear - Cm. lia.
  - split; [lia|].
    apply Z.lt_le_incl, Z.lt_le_trans with (1 := Hm).
    apply Z.pow_le_mono_r; lia.
Qed.

(** Taking a non-negative number from a number of (0, 1] gives a number
    that, if positive, is at most 1. *)
Lemma SFsub_le_one (m : positive) (e : Z) (x : spec_float) :
  e <= -52 -> Zpos m <= 2 ^ (- e) -> SFnonneg x = true ->
  let s := SFsub prec emax (S754_finite false m e) x in
  s <> S754_nan /\
  (SFltb (S754_zero false) s = true ->
   SFleb s (S754_finite false 4503599627370496 (-52)) = true).
Proof.
  intros He Hm Hx. cbv zeta.
  destruct x as [sx|[|]| |[|] mx ex]; try discriminate Hx;
    cbn [SFsub negb].
  - split; [discriminate|]. intros _. apply finite_le_one; assumption.
  - split; [discriminate|]. discriminate.
  - cbn [cond_Zopp].
    set (ez := Z.min e ex).
    destruct (shl_align_value m e ez) as [Sa Va].
    destruct (shl_align_value mx ex ez) as [Sb Vb].
    set (a := fst (shl_align m e ez)) in *.
    set (b := fst (shl_align mx ex ez)) in *.
    assert (Ez : snd (shl_align m e ez) = ez) by (rewrite Sa; subst ez; lia).
    rewrite Ez in Va.
    assert (Ha : Zpos a <= 2 ^ (- ez)).
    { rewrite Va.
      replace (2 ^ (- ez)) with (2 ^ (- e) * 2 ^ (e - ez))
        by (rewrite <- Z.pow_add_r by (subst ez; lia); f_equal; lia).
      apply Z.mul_le_mono_nonneg_r; [|exact Hm].
      apply Z.pow_nonneg. lia. }
    assert (Hez : ez <= -52) by (subst ez; lia).
    destruct (Zpos a - Zpos b) as [|d|d] eqn:D; cbn [binary_normalize].
    + split; [discriminate|]. discriminate.
    + unfold binary_round.
      destruct (shl_align_value d ez
                  (fexp prec emax (Zpos (digits2_pos d) + ez))) as [Sd Vd].
      destruct (shl_align d ez _) as [mz ez']. cbn [fst snd] in Sd, Vd.
      assert (Hz : ez' <= -52) by lia.
      assert (Hmz : Zpos mz <= 2 ^ (- ez')).
      { rewrite Vd.
        replace (2 ^ (- ez')) with (2 ^ (- ez) * 2 ^ (ez - ez'))
          by (rewrite <- Z.pow_add_r by lia; f_equal; lia).
        apply Z.mul_le_mono_nonneg_r; [apply Z.pow_nonneg; lia|]. lia. }
      pose proof (binary_round_aux_sign false mz ez') as Sg.
      split.
      * intros N. rewrite N in Sg. exact Sg.
      * intros _. apply binary_round_aux_le_one; assumption.
    + unfold binary_round.
      destruct (shl_align d ez _) as [mz ez'].
      pose proof (binary_round_aux_sign true mz ez') as Sg.
      destruct (binary_round_aux _ _ _ _ _ _) as [s|s| |s m' e'];
        try contradiction; subst s; split; try discriminate.
Qed.

Lemma is_nan_spec (v : float) :
  is_nan v = false <-> Prim2SF v <> S754_nan.
Proof.
  unfold is_nan. rewrite eqb_spec. unfold SFeqb. split.
  - intros H N. rewrite N in H. discriminate H.
  - intros N. rewrite SFcompare_refl; [reflexivity | exact N].
Qed.

Lemma SFnonneg_not_nan (a : spec_float) :
  SFnonneg a = true -> a <> S754_nan.
Proof. destruct a; cbn; congruence. Qed.

(** One frame keeps the progress between 0 and 1. *)
Lemma nextSelectionProgress_inUnitInterval
    (state : SceneState) (delta : float) (isSelected : bool) (p : float) :
  (0 <=? delta)%float = true -> inUnitInterval p = true ->
  inUnitInterval (nextSelectionProgress state delta isSelected p) = true.
Proof.
  intros Hd Hp. pose proof Hp as Hp'.
  unfold inUnitInterval in Hp'. apply andb_prop in Hp'.
  destruct Hp' as [P0 P1].
  rewrite leb_zero_nonneg in Hd, P0.
  unfold nextSelectionProgress.
  destruct (isSelected && SceneState_eqb state CHAOS).
  - (* rising *)
    set (s := (p + delta * 6)%float).
    assert (Ns : SFnonneg (Prim2SF s) = true).
    { subst s. rewrite add_spec, mul_spec.
      replace (Prim2SF 6) with (S754_finite false 6755399441055744 (-50))
        by (vm_compute; reflexivity).
      apply SFadd_nonneg; [exact P0|].
      apply SFmul_finite_nonneg. exact Hd. }
    assert (Nn : is_nan s = false)
      by (apply is_nan_spec, SFnonneg_not_nan; exact Ns).
    unfold Math_min. rewrite Nn.
    change (is_nan 1 || false) with false. cbv iota.
    change (get_sign 1) with false. cbv iota.
    unfold inUnitInterval.
    destruct (s <? 1)%float eqn:L1.
    + rewrite leb_zero_nonneg, Ns. cbn [andb].
      rewrite ltb_spec in L1. rewrite leb_spec. apply SFltb_leb. exact L1.
    + destruct (1 <? s)%float eqn:L2; [reflexivity|].
      rewrite leb_zero_nonneg, Ns. cbn [andb].
      rewrite ltb_spec in L2. rewrite leb_spec.
      apply SFnot_gt_leb; [exact L2| |].
      * apply SFnonneg_not_nan. exact Ns.
      * replace (Prim2SF 1) with (S754_finite false 4503599627370496 (-52))
          by (vm_compute; reflexivity).
        discriminate.
  - destruct (0 <? p)%float eqn:Pos; [|exact Hp].
    (* falling *)
    destruct (Prim2SF_unit p Pos P1) as (m & e & Ep & He & Hm).
    set (s := (p - delta * 4)%float).
    assert (Nx : SFnonneg (Prim2SF (delta * 4)) = true).
    { rewrite mul_spec.
      replace (Prim2SF 4) with (S754_finite false 4503599627370496 (-50))
        by (vm_compute; reflexivity).
      apply SFmul_finite_nonneg. exact Hd. }
    destruct (SFsub_le_one m e _ He Hm Nx) as [Nn Le].
    assert (Es : Prim2SF s =
                 SFsub prec emax (S754_finite false m e)
                       (Prim2SF (delta * 4)))
      by (subst s; rewrite sub_spec, Ep; reflexivity).
    rewrite <- Es in Nn, Le.
    apply is_nan_spec in Nn.
    unfold Math_max. rewrite Nn.
    change (is_nan 0 || false) with false. cbv iota.
    change (get_sign 0) with false. cbv iota.
    unfold inUnitInterval.
    destruct (0 <? s)%float eqn:L1.
    + pose proof L1 as L1'. rewrite ltb_spec in L1'.
      replace (Prim2SF 0) with (S754_zero false) in L1'
        by (vm_compute; reflexivity).
      rewrite (leb_spec s 1).
      replace (Prim2SF 1) with (S754_finite false 4503599627370496 (-52))
        by (vm_compute; reflexivity).
      rewrite (Le L1'), andb_true_r.
      rewrite leb_spec. apply SFltb_leb. rewrite <- ltb_spec. exact L1.
    + destruct (s <? 0)%float; reflexivity.
Qed.

(** X19. Over any run of frames with non-negative time steps, whatever the
    scene state and the selection do, the popup progress of a photo stays
    between 0 and 1. *)
Theorem popup_progress_stays_in_unit_interval
    (frames : list (SceneState * float * bool)) (p : float) :
  Forall (fun frame => (0 <=? snd (fst frame))%float = true) frames ->
  inUnitInterval p = true ->
  inUnitInterval (progressAfter frames p) = true.
Proof.
  intros H. revert p. unfold progressAfter.
  induction H as [|[[state delta] isSelected] rest Hd _ IH]; intros p Hp.
  - exact Hp.
  - cbn [fold_left]. apply IH.
    apply nextSelectionProgress_inUnitInterval; assumption.
Qed.

Lemma popup_progress_stays_in_unit_interval_witness :
  inUnitInterval
    (progressAfter [(CHAOS, 0.016%float, true); (CHAOS, 0.5%float, true);
                    (FORMED, 0.1%float, true); (CHAOS, 0.3%float, false)]
       0%float) = true.
Proof.
  apply popup_progress_stays_in_unit_interval.
  - repeat constructor.
  - reflexivity.
Defined.

End Progress.

(** ** The timeout of a pinch start, with the hit test *)

(** X20. The timeout of a pinch start always selects an ornament, and only
    does that.  With the hit test of [Experience] on [window], or none
    while the scene is not mounted, and at most 72 children in the photo
    group, the photo it selects is the index the hit test returns when it
    returns one, and otherwise [Math.floor(Math.random() * 72)]; either is
    one of the indices 0 to 71. *)
Theorem timeout_selects_ornament
    (scene : float -> float ->
             bool * option (list Experience.Child) * list nat)
    (mounted : bool) (random screenX screenY : float)
    (st : GrandTreeApp.State) :
  (forall x y camera children intersects,
     scene x y = (camera, Some children, intersects) ->
     List.length children <= 72) ->
  GrandTreeApp.isMathRandom random = true ->
  let findClosestPhoto :=
    if mounted then Some (Experience.hitTest scene) else None in
  let photoIndex :=
    match (if mounted then Experience.hitTest scene screenX screenY
           else None) with
    | Some i => i
    | None => GrandTreeApp.Math_floor (random * 72)%float
    end in
  GrandTreeApp.isOrnamentIndex photoIndex /\
  GrandTreeApp.pinchTimeout findClosestPhoto random screenX screenY st =
    GrandTreeApp.setSelectedPhotoIndex (Some photoIndex) st.
Proof.
  intros Small U. cbv zeta. unfold GrandTreeApp.pinchTimeout.
  destruct mounted; [|split; [apply random_ornament_index; exact U
                             | reflexivity]].
  destruct (Experience.hitTest scene screenX screenY) as [i|] eqn:H;
    [|split; [apply random_ornament_index; exact U | reflexivity]].
  split; [|reflexivity].
  unfold Experience.hitTest in H.
  destruct (scene screenX screenY) as [[camera photoGroup] intersects] eqn:S.
  destruct (Experience.findClosestPhoto camera photoGroup intersects)
    as [k|] eqn:F; [|discriminate H].
  cbn in H. injection H as <-.
  destruct (findClosestPhoto_child camera photoGroup intersects k F)
    as (children & g & -> & R & _).
  exists k. split; [|reflexivity].
  specialize (Small _ _ _ _ _ S). lia.
Qed.

Lemma timeout_selects_ornament_witness :
  GrandTreeApp.selectedPhotoIndex
    (GrandTreeApp.pinchTimeout
       (Some (Experience.hitTest
                (fun _ _ => (true, Some Experience.sampleChildren, [13]))))
       0.5 0.025 0.5 GrandTreeApp.initial) = Some 2%float /\
  GrandTreeApp.selectedPhotoIndex
    (GrandTreeApp.pinchTimeout None 0.9999999999999999 0.025 0.5
       GrandTreeApp.initial) = Some 71%float.
Proof.
  assert (Small : forall x y camera children intersects,
            (fun _ _ : float =>
               (true, Some Experience.sampleChildren, [13])) x y =
              (camera, Some children, intersects) ->
            List.length children <= 72).
  { intros x y camera children intersects X. injection X as _ <- _.
    cbn. lia. }
  split.
  - rewrite (proj2 (timeout_selects_ornament _ true 0.5 0.025 0.5
                      GrandTreeApp.initial Small eq_refl)).
    vm_compute. reflexivity.
  - rewrite (proj2 (timeout_selects_ornament
                      (fun _ _ => (true, Some Experience.sampleChildren,
                                   [13]))
                      false 0.9999999999999999 0.025 0.5
                      GrandTreeApp.initial Small eq_refl)).
    vm_compute. reflexivity.
Defined.
